(** * mathlib: the C library behind the C-binding example

    A shallow embedding of [carbide/examples/c-binding/vendor/mathlib.c]
    and the properties its specification states about it.

    Conventions of the embedding.
    - [int32_t] and [int64_t] values are integers of [Z]; every signed
      addition, subtraction, negation and multiplication is followed by
      its two's-complement wrap-around ([wrap32], [wrap64]), the reading
      the specification itself adopts for [add] and [multiply].
    - [/] is C's truncating division ([Z.quot]).  It has no result when
      the divisor is zero or when the quotient is not representable
      ([INT32_MIN / -1]); both are undefined in C and trap on the usual
      hardware, so the embedding returns [None] there.
    - A pointer argument is an [option]: [None] is the null pointer and
      [Some v] points at an object that currently holds [v].
    - A call that writes through an output pointer returns the status
      code together with the contents of the output cell after the call. *)

From Stdlib Require Import ZArith List String Ascii Bool Lia Permutation.
From Equations Require Import Equations.
Import ListNotations.

Local Open Scope Z_scope.

(** ** Fixed-width signed arithmetic *)

Module Int.

Definition INT32_MIN : Z := -2147483648.
Definition INT32_MAX : Z := 2147483647.
Definition INT64_MIN : Z := -9223372036854775808.
Definition INT64_MAX : Z := 9223372036854775807.

Definition in_int32 (z : Z) : Prop := INT32_MIN <= z <= INT32_MAX.
Definition in_int64 (z : Z) : Prop := INT64_MIN <= z <= INT64_MAX.

(** Reduction of an integer to the signed [bits]-bit value congruent
    to it modulo [2^bits]. *)
Definition wrap (bits z : Z) : Z :=
  (z + 2 ^ (bits - 1)) mod 2 ^ bits - 2 ^ (bits - 1).

Definition wrap32 : Z -> Z := wrap 32.
Definition wrap64 : Z -> Z := wrap 64.

Definition add32 (a b : Z) : Z := wrap32 (a + b).
Definition sub32 (a b : Z) : Z := wrap32 (a - b).
Definition mul32 (a b : Z) : Z := wrap32 (a * b).
Definition neg32 (a : Z) : Z := wrap32 (- a).
Definition add64 (a b : Z) : Z := wrap64 (a + b).

(** [a / b] on [int32_t]: truncation toward zero, undefined for a zero
    divisor and for the one quotient that does not fit. *)
Definition div32 (a b : Z) : option Z :=
  if b =? 0 then None
  else if (a =? INT32_MIN) && (b =? -1) then None
  else Some (a ÷ b).

End Int.
Import Int.

(** ** Status codes (mathlib.h) *)

Definition MATHLIB_OK : Z := 0.
Definition MATHLIB_ERR_NULL : Z := -1.
Definition MATHLIB_ERR_RANGE : Z := -2.
Definition MATHLIB_ERR_ZERO : Z := -3.

(** ** Outcome of a call with an output parameter *)

(** [Returns code cell]: the call returned [code] and the object behind
    the output pointer now holds [cell] ([None] when the pointer was
    null).  [Undefined]: the execution ran into undefined behaviour
    (division without a result, read past the end of an array) and
    nothing can be said about a return. *)
Inductive outcome : Type :=
| Returns (code : Z) (cell : option Z)
| Undefined.

(** Sequencing of partial computations. *)
Definition bind {A B : Type} (m : option A) (k : A -> option B) : option B :=
  match m with
  | Some a => k a
  | None => None
  end.

Notation "x <- m ;; k" := (bind m (fun x => k))
  (at level 61, m at next level, right associativity).

(** ** Simple operations *)

Definition mathlib_add (a b : Z) : Z := add32 a b.

Definition mathlib_multiply (a b : Z) : Z := mul32 a b.

(** ** Operations that can fail *)

Definition mathlib_divide (a b : Z) (result : option Z) : outcome :=
  match result with
  | None => Returns MATHLIB_ERR_NULL None
  | Some old =>
      if b =? 0 then Returns MATHLIB_ERR_ZERO (Some old)
      else match div32 a b with
           | Some q => Returns MATHLIB_OK (Some q)
           | None => Undefined
           end
  end.

(** One evaluation of [(x + n / x) / 2]. *)
Definition newton_step (n x : Z) : option Z :=
  q <- div32 n x ;; div32 (add32 x q) 2.

Definition inspect {A : Type} (a : A) : {b : A | a = b} := exist _ a eq_refl.

(** Decreases along the loop: the new [x] is the old [y], which is below
    the old [x], and every computed [y] is an [int32_t]. *)
Definition loop_measure (x y : Z) : nat :=
  (Z.to_nat (x - INT32_MIN) + (if (y <? INT32_MIN)%Z then 1 else 0))%nat.

(** The order the loop descends along.  Its well-foundedness proof is
    guarded so that closed calls of the loop evaluate. *)
Definition loop_order (p q : Z * Z) : Prop :=
  (loop_measure (fst p) (snd p) < loop_measure (fst q) (snd q))%nat.

Definition loop_order_wf : well_founded loop_order :=
  Wf_nat.well_founded_ltof _ (fun p => loop_measure (fst p) (snd p)).

#[local] Instance loop_order_WellFounded : WellFounded loop_order :=
  Acc_intro_generator 64 loop_order_wf.
#[local] Opaque loop_order_WellFounded.

(** The loop [while (y < x) { x = y; y = (x + n / x) / 2; }], returning
    the final [x]. *)
Equations? sqrt_loop (n x y : Z) : option Z by wf (x, y) loop_order :=
  sqrt_loop n x y with Z_lt_dec y x := {
    | right _ => Some x
    | left _ with inspect (newton_step n y) := {
        | exist _ None _ => None
        | exist _ (Some y') e => sqrt_loop n y y' } }.
Proof.
  assert (INT32_MIN <= y') as Hlow.
  { revert e. unfold newton_step, bind. destruct (div32 n y); [|discriminate].
    unfold div32, add32, wrap32, wrap, INT32_MIN. cbn [Z.eqb].
    rewrite andb_false_r. intros [= <-].
    change (2 ^ (32 - 1)) with 2147483648. change (2 ^ 32) with 4294967296.
    Z.to_euclidean_division_equations. lia. }
  unfold loop_order, loop_measure. cbn [fst snd].
  destruct (Z.ltb_spec y' INT32_MIN); [lia|].
  destruct (Z.ltb_spec y INT32_MIN); lia.
Qed.

Definition mathlib_sqrt (n : Z) (result : option Z) : outcome :=
  match result with
  | None => Returns MATHLIB_ERR_NULL None
  | Some old =>
      if n <? 0 then Returns MATHLIB_ERR_RANGE (Some old)
      else if n =? 0 then Returns MATHLIB_OK (Some 0)
      else
        let x := n in
        match div32 (add32 x 1) 2 with
        | None => Undefined
        | Some y =>
            match sqrt_loop n x y with
            | Some r => Returns MATHLIB_OK (Some r)
            | None => Undefined
            end
        end
  end.

(** ** Array operations *)

(** An array argument is the list of the [int32_t] objects stored from
    the pointer on; [len] is passed separately, as in C, and reading
    [arr[i]] beyond the stored objects has no result.  The [size_t]
    counter never wraps (it stays below [len]), so it is a [nat]. *)

(** [for (i = ...; i < len; i++) sum += arr[i];] with [todo = len - i]
    iterations left; the accumulator is an [int64_t]. *)
Fixpoint sum_loop (arr : list Z) (i todo : nat) (sum : Z) : option Z :=
  match todo with
  | O => Some sum
  | S todo' =>
      v <- nth_error arr i ;;
      sum_loop arr (S i) todo' (add64 sum v)
  end.

Definition mathlib_sum_array (arr : option (list Z)) (len : nat)
    (result : option Z) : outcome :=
  match arr, result with
  | Some a, Some _ =>
      match sum_loop a 0 len 0 with
      | Some sum => Returns MATHLIB_OK (Some sum)
      | None => Undefined
      end
  | _, _ => Returns MATHLIB_ERR_NULL result
  end.

(** [for (i = ...; i < len; i++) if (arr[i] > max) max = arr[i];] *)
Fixpoint max_loop (arr : list Z) (i todo : nat) (max : Z) : option Z :=
  match todo with
  | O => Some max
  | S todo' =>
      v <- nth_error arr i ;;
      max_loop arr (S i) todo' (if v >? max then v else max)
  end.

Definition mathlib_find_max (arr : option (list Z)) (len : nat)
    (result : option Z) : outcome :=
  match arr, result with
  | Some a, Some old =>
      if (len =? 0)%nat then Returns MATHLIB_ERR_RANGE (Some old)
      else
        match (max <- nth_error a 0 ;; max_loop a 1 (len - 1) max) with
        | Some max => Returns MATHLIB_OK (Some max)
        | None => Undefined
        end
  | _, _ => Returns MATHLIB_ERR_NULL result
  end.

(** ** String operations *)

(** A [const char*] argument is the string of the characters stored from
    the pointer on; the terminating NUL follows its last character, and
    a NUL character inside it ends the C string earlier. *)

Definition is_nul (c : ascii) : bool := (N_of_ascii c =? 0)%N.

(** [*(str + off)]: past the stored characters sits the terminator. *)
Definition char_at (s : string) (off : nat) : ascii :=
  match String.get off s with
  | Some c => c
  | None => zero
  end.

(** The C library's [strlen] (ISO C 7.24.6.3): the number of characters
    before the first NUL. *)
Fixpoint strlen (s : string) : nat :=
  match s with
  | EmptyString => O
  | String c s' => if is_nul c then O else S (strlen s')
  end.

Definition mathlib_strlen (str : option string) : nat :=
  match str with
  | None => O
  | Some s => strlen s
  end.

(** [isspace] in the C locale: space, and the controls [\t \n \v \f \r]. *)
Definition isspace (c : ascii) : bool :=
  let n := N_of_ascii c in ((n =? 32) || ((9 <=? n) && (n <=? 13)))%N.

(** The value of a decimal digit. *)
Definition digit_of (c : ascii) : option Z :=
  let n := Z.of_N (N_of_ascii c) in
  if (48 <=? n) && (n <=? 57) then Some (n - 48) else None.

(** Leading white space: how many characters, and what follows. *)
Fixpoint skip_spaces (s : string) : nat * string :=
  match s with
  | String c s' =>
      if isspace c then let (k, r) := skip_spaces s' in (S k, r) else (O, s)
  | EmptyString => (O, s)
  end.

(** An optional sign: whether it is a minus, its length, what follows. *)
Definition scan_sign (s : string) : bool * nat * string :=
  match s with
  | String c s' =>
      if Ascii.eqb c "-" then (true, 1%nat, s')
      else if Ascii.eqb c "+" then (false, 1%nat, s')
      else (false, O, s)
  | EmptyString => (false, O, s)
  end.

(** The longest run of decimal digits: its value on top of [acc], its
    length, what follows. *)
Fixpoint scan_digits (s : string) (acc : Z) : Z * nat * string :=
  match s with
  | String c s' =>
      match digit_of c with
      | Some d =>
          let '(v, k, r) := scan_digits s' (acc * 10 + d) in (v, S k, r)
      | None => (acc, O, s)
      end
  | EmptyString => (acc, O, s)
  end.

Definition ERANGE : Z := 34.

Record strtol_result : Type :=
  { value : Z;      (* the returned [long] *)
    endptr : nat;   (* offset of [*endptr] from [str] *)
    errno : Z }.

Section Strtol.

(** The width of [long] on the platform (64 on LP64, 32 on ILP32 and
    LLP64). *)
Variable long_bits : Z.

Definition LONG_MAX : Z := 2 ^ (long_bits - 1) - 1.
Definition LONG_MIN : Z := - 2 ^ (long_bits - 1).

(** The C library's [strtol (str, &endptr, 10)] (ISO C 7.22.1.4), which
    is not part of the repository: white space is skipped, an optional
    sign and the longest run of decimal digits are converted; without
    a digit no conversion takes place and [endptr] is [str]; a value
    that does not fit a [long] is clamped and [errno] set to [ERANGE]. *)
Definition strtol (s : string) : strtol_result :=
  let (k1, s1) := skip_spaces s in
  let '(neg, k2, s2) := scan_sign s1 in
  let '(v, k3, _) := scan_digits s2 0 in
  match k3 with
  | O => {| value := 0; endptr := O; errno := 0 |}
  | S _ =>
      let val := if neg : bool then - v else v in
      let e := (k1 + k2 + k3)%nat in
      if val >? LONG_MAX then
        {| value := LONG_MAX; endptr := e; errno := ERANGE |}
      else if val <? LONG_MIN then
        {| value := LONG_MIN; endptr := e; errno := ERANGE |}
      else {| value := val; endptr := e; errno := 0 |}
  end.

Definition mathlib_parse_int (str : option string) (result : option Z)
    : outcome :=
  match str, result with
  | Some s, Some old =>
      let r := strtol s in
      if negb (errno r =? 0) || (endptr r =? 0)%nat
         || negb (is_nul (char_at s (endptr r)))
      then Returns MATHLIB_ERR_RANGE (Some old)
      else if (value r <? INT32_MIN) || (value r >? INT32_MAX)
      then Returns MATHLIB_ERR_RANGE (Some old)
      else Returns MATHLIB_OK (Some (wrap32 (value r)))
  | _, _ => Returns MATHLIB_ERR_NULL result
  end.

End Strtol.

(** ** Struct handling *)

Record Point : Type := { x : Z; y : Z }.

Record Rectangle : Type := { top_left : Point; bottom_right : Point }.

Definition mathlib_point_distance_squared (a b : option Point) : Z :=
  match a, b with
  | Some a, Some b =>
      let dx := sub32 (x b) (x a) in
      let dy := sub32 (y b) (y a) in
      add32 (mul32 dx dx) (mul32 dy dy)
  | _, _ => -1
  end.

Definition mathlib_rectangle_area (rect : option Rectangle) : Z :=
  match rect with
  | None => -1
  | Some r =>
      let width := sub32 (x (bottom_right r)) (x (top_left r)) in
      let height := sub32 (y (bottom_right r)) (y (top_left r)) in
      let width := if width <? 0 then neg32 width else width in
      let height := if height <? 0 then neg32 height else height in
      mul32 width height
  end.

(** ** Callback iteration *)

(** A callback acts on whatever it can reach, the object behind
    [user_data] included: that is the state [W] it transforms.  [U] is
    the type of the opaque [user_data] value handed back to it. *)
Definition mathlib_callback_fn (U W : Type) : Type := U -> Z -> W -> W.

(** [for (i = ...; i < len; i++) callback(user_data, arr[i]);] *)
Fixpoint foreach_loop {U W : Type} (arr : list Z) (i todo : nat)
    (callback : mathlib_callback_fn U W) (user_data : U) (w : W)
    : option W :=
  match todo with
  | O => Some w
  | S todo' =>
      v <- nth_error arr i ;;
      foreach_loop arr (S i) todo' callback user_data
        (callback user_data v w)
  end.

(** The state after the call; [None] when the loop reads past the end of
    the array. *)
Definition mathlib_foreach {U W : Type} (arr : option (list Z)) (len : nat)
    (callback : option (mathlib_callback_fn U W)) (user_data : U) (w : W)
    : option W :=
  match arr, callback with
  | Some a, Some cb => foreach_loop a 0 len cb user_data w
  | _, _ => Some w
  end.

(** ** Formatting *)

Definition digit_char (d : Z) : ascii := ascii_of_N (48 + Z.to_N d).

(** The order the digit loop descends along, guarded like the one of the
    square root. *)
Definition below (a b : Z) : Prop := 0 <= a < b.

#[local] Instance below_WellFounded : WellFounded below :=
  Acc_intro_generator 64 (Z.lt_wf 0).
#[local] Opaque below_WellFounded.

(** The decimal digits of a non-negative number, most significant
    first, in front of [acc]. *)
Equations? uint_text (n : Z) (acc : string) : string by wf n below :=
  uint_text n acc with Z_lt_dec n 10 := {
    | left _ => String (digit_char n) acc
    | right _ => uint_text (n / 10) (String (digit_char (n mod 10)) acc) }.
Proof.
  unfold below. Z.to_euclidean_division_equations. lia.
Qed.

(** The C library's [%d] conversion (ISO C 7.21.6.1), which is not part
    of the repository: a minus sign for a negative value, then the
    decimal digits without leading zeros. *)
Definition sint_text (v : Z) : string :=
  if v <? 0 then String "-" (uint_text (- v) EmptyString)
  else uint_text v EmptyString.

(** [snprintf (buffer, size, "Point(%d, %d)", px, py)]: the characters
    left in the buffer before its terminator, at most [size - 1]. *)
Definition snprintf_point (size : nat) (px py : Z) : string :=
  substring 0 (size - 1)
    ("Point(" ++ sint_text px ++ ", " ++ sint_text py ++ ")").

(** [allocated] tells whether [malloc (64)] succeeds; the result is the
    text of the returned buffer, [None] for a null result. *)
Definition mathlib_format_point (p : option Point) (allocated : bool)
    : option string :=
  match p with
  | None => None
  | Some p =>
      if allocated then Some (snprintf_point 64 (x p) (y p)) else None
  end.

(** ** Reference definitions

    What the specification says in its own words, to compare the code
    with. *)

(** The exact (unbounded) sum of the elements. *)
Definition exact_sum (l : list Z) : Z := fold_right Z.add 0 l.

(** The scan the specification describes for [findMax]: it starts from
    the first element and moves on to a later one only when that one is
    strictly greater.  It keeps the position next to the value. *)
Fixpoint scan_from (l : list Z) (i : nat) (best : nat * Z) : nat * Z :=
  match l with
  | [] => best
  | v :: l' => scan_from l' (S i) (if v >? snd best then (i, v) else best)
  end.

Definition first_max_scan (l : list Z) : option (nat * Z) :=
  match l with
  | [] => None
  | v :: l' => Some (scan_from l' 1 (O, v))
  end.

(** [best_of l (k, m)]: [m] sits at position [k] of [l], nothing in [l]
    is greater, and everything before position [k] is strictly smaller:
    [k] is the first occurrence of the maximum. *)
Definition best_of (l : list Z) (best : nat * Z) : Prop :=
  nth_error l (fst best) = Some (snd best)
  /\ (forall j v, nth_error l j = Some v -> v <= snd best)
  /\ (forall j v, (j < fst best)%nat -> nth_error l j = Some v ->
                  v < snd best).

(** The squared Euclidean distance of two points, over the integers. *)
Definition squared_distance (a b : Point) : Z :=
  (x b - x a) * (x b - x a) + (y b - y a) * (y b - y a).

(** Absolute width times absolute height, over the integers. *)
Definition exact_area (r : Rectangle) : Z :=
  Z.abs (x (bottom_right r) - x (top_left r))
  * Z.abs (y (bottom_right r) - y (top_left r)).

(** The rectangle with its two corners exchanged. *)
Definition swap_corners (r : Rectangle) : Rectangle :=
  {| top_left := bottom_right r; bottom_right := top_left r |}.

(** [if (w < 0) w = -w;] on an [int32_t], as a function. *)
Definition abs32 (w : Z) : Z := if w <? 0 then neg32 w else w.

(** The text of a C string: its characters before the first NUL. *)
Fixpoint c_text (s : string) : string :=
  match s with
  | EmptyString => EmptyString
  | String c s' => if is_nul c then EmptyString else String c (c_text s')
  end.

Definition isdigit (c : ascii) : bool :=
  match digit_of c with
  | Some _ => true
  | None => false
  end.

Fixpoint all_chars (p : ascii -> bool) (s : string) : bool :=
  match s with
  | EmptyString => true
  | String c s' => p c && all_chars p s'
  end.

(** Whether the string begins with a character of the class [p]. *)
Definition starts_with (p : ascii -> bool) (s : string) : bool :=
  match s with
  | EmptyString => false
  | String c _ => p c
  end.

(** The number a string of decimal digits denotes, by position. *)
Fixpoint decimal_value (ds : string) : Z :=
  match ds with
  | EmptyString => 0
  | String c ds' =>
      match digit_of c with
      | Some d => d * 10 ^ Z.of_nat (String.length ds') + decimal_value ds'
      | None => decimal_value ds'
      end
  end.

(** [decimal_text t v]: the whole of [t] is a base-10 integer denoting
    [v], in the form [strtol] reads: optional white space, an optional
    sign, one or more decimal digits, and nothing else. *)
Definition decimal_text (t : string) (v : Z) : Prop :=
  exists ws sg ds : string,
    t = (ws ++ sg ++ ds)%string
    /\ all_chars isspace ws = true
    /\ ds <> EmptyString /\ all_chars isdigit ds = true
    /\ (sg = EmptyString /\ v = decimal_value ds
        \/ sg = "+"%string /\ v = decimal_value ds
        \/ sg = "-"%string /\ v = - decimal_value ds).

(** Whether the C string ends where [rest] begins: [*endptr == 0]. *)
Definition ends_here (rest : string) : bool :=
  match rest with
  | EmptyString => true
  | String c _ => is_nul c
  end.

Definition fits_int32 (v : Z) : bool :=
  (INT32_MIN <=? v) && (v <=? INT32_MAX).

(** A string none of whose stored characters is a NUL. *)
Definition no_nul (s : string) : Prop :=
  all_chars (fun c => negb (is_nul c)) s = true.

(** The rendering ["Point(x, y)"] of two coordinates. *)
Definition point_text (px py : Z) : string :=
  ("Point(" ++ sint_text px ++ ", " ++ sint_text py ++ ")")%string.

(** The rectangle given by the other diagonal: the two [x]
    coordinates exchanged, or the two [y] coordinates. *)
Definition flip_x (r : Rectangle) : Rectangle :=
  {| top_left := {| x := x (bottom_right r); y := y (top_left r) |};
     bottom_right := {| x := x (top_left r); y := y (bottom_right r) |} |}.

Definition flip_y (r : Rectangle) : Rectangle :=
  {| top_left := {| x := x (top_left r); y := y (bottom_right r) |};
     bottom_right := {| x := x (bottom_right r); y := y (top_left r) |} |}.

(** * Properties *)

(** Goals that are linear once the ranges are spelled out. *)
Ltac ranges :=
  unfold in_int32, in_int64, INT32_MIN, INT32_MAX, INT64_MIN, INT64_MAX
    in *;
  lia.

(** ** Wrap-around *)

Lemma wrap32_id (z : Z) : in_int32 z -> wrap32 z = z.
Proof.
  unfold in_int32, INT32_MIN, INT32_MAX, wrap32, wrap. intros H.
  change (2 ^ (32 - 1)) with 2147483648. change (2 ^ 32) with 4294967296.
  rewrite Z.mod_small; lia.
Qed.

Lemma wrap64_id (z : Z) : in_int64 z -> wrap64 z = z.
Proof.
  unfold in_int64, INT64_MIN, INT64_MAX, wrap64, wrap. intros H.
  change (2 ^ (64 - 1)) with 9223372036854775808.
  change (2 ^ 64) with 18446744073709551616.
  rewrite Z.mod_small; lia.
Qed.

Lemma wrap32_range (z : Z) : in_int32 (wrap32 z).
Proof.
  unfold in_int32, INT32_MIN, INT32_MAX, wrap32, wrap.
  change (2 ^ (32 - 1)) with 2147483648. change (2 ^ 32) with 4294967296.
  pose proof (Z.mod_pos_bound (z + 2147483648) 4294967296). lia.
Qed.

(** A wrapped value differs from the exact one by a multiple of [2^32]. *)
Lemma wrap32_congr (z : Z) : exists k, wrap32 z = z + k * 4294967296.
Proof.
  unfold wrap32, wrap.
  change (2 ^ (32 - 1)) with 2147483648. change (2 ^ 32) with 4294967296.
  exists (- ((z + 2147483648) / 4294967296)).
  pose proof (Z.div_mod (z + 2147483648) 4294967296). lia.
Qed.

(** ** Integer square root *)

(** Between [1] and [n] the sum [x + n / x] stays an [int32_t]. *)
Lemma newton_sum_bound (n x : Z) : 1 <= x <= n -> 0 <= x + n ÷ x <= n + 1.
Proof.
  intros H. Z.to_euclidean_division_equations. nia.
Qed.

Lemma newton_step_exact (n x : Z) :
  1 <= x <= n -> n < INT32_MAX ->
  newton_step n x = Some ((x + n ÷ x) ÷ 2).
Proof.
  intros Hx Hn. unfold newton_step, bind, div32, add32.
  destruct (Z.eqb_spec x 0); [lia|].
  destruct (Z.eqb_spec n INT32_MIN); [unfold INT32_MIN in *; lia|].
  cbn [andb]. pose proof (newton_sum_bound n x Hx).
  rewrite wrap32_id by ranges.
  cbn [Z.eqb]. rewrite andb_false_r. reflexivity.
Qed.

(** The Newton iterate never falls below the root. *)
Lemma newton_step_above (n x : Z) :
  1 <= x -> 0 <= n ->
  n < ((x + n ÷ x) ÷ 2 + 1) * ((x + n ÷ x) ÷ 2 + 1).
Proof.
  intros Hx Hn.
  pose proof (Z.quot_rem' n x) as Hq.
  pose proof (Z.rem_bound_pos n x Hn ltac:(lia)) as Hr.
  assert (0 <= n ÷ x) as Hq0 by (apply Z.quot_pos; lia).
  set (q := n ÷ x) in *. set (r := Z.rem n x) in *.
  pose proof (Z.quot_rem' (x + q) 2) as Hs.
  pose proof (Z.rem_bound_pos (x + q) 2 ltac:(lia) ltac:(lia)) as Ht.
  set (h := (x + q) ÷ 2) in *. set (t := Z.rem (x + q) 2) in *.
  assert (0 <= (x - q - 1) * (x - q - 1)) by apply Z.square_nonneg.
  nia.
Qed.

(** A fixed point of the iteration is not above the root. *)
Lemma newton_exit_below (n x : Z) :
  1 <= x -> 0 <= n -> ~ (x + n ÷ x) ÷ 2 < x -> x * x <= n.
Proof.
  intros Hx Hn. Z.to_euclidean_division_equations. nia.
Qed.

Lemma sqrt_loop_floor (n x y : Z) :
  1 <= n < INT32_MAX -> 1 <= x <= n -> n < (x + 1) * (x + 1) ->
  y = (x + n ÷ x) ÷ 2 ->
  exists r, sqrt_loop n x y = Some r /\ r * r <= n < (r + 1) * (r + 1).
Proof.
  funelim (sqrt_loop n x y); intros Hn Hx Hup Hy;
    pose proof (newton_step_above n _ (proj1 Hx) ltac:(lia)) as Hup';
    pose proof (Z.quot_pos _ 2 (proj1 (newton_sum_bound n _ Hx)) ltac:(lia))
      as Hpos;
    rewrite <- Hy in Hup', Hpos.
  - (* the loop exits *)
    eexists. split; [reflexivity|]. split; [|assumption].
    subst. apply newton_exit_below; [lia | lia | assumption].
  - (* one more iteration *)
    match goal with e : newton_step _ ?c = Some ?c' |- _ =>
      assert (1 <= c) by nia;
      assert (c' = (c + n ÷ c) ÷ 2) as Hy'
        by (pose proof e as e'; rewrite newton_step_exact in e' by lia;
            injection e' as e'; symmetry; exact e')
    end.
    match goal with IH : _ -> _ -> _ -> _ -> exists r, _ |- _ =>
      apply IH; [lia | lia | assumption | exact Hy'] end.
  - (* the division cannot fail *)
    match goal with e : newton_step _ ?c = None |- _ =>
      assert (1 <= c) by nia;
      pose proof e as e'; rewrite newton_step_exact in e' by lia;
      discriminate e'
    end.
Qed.

Lemma sqrt_first_iterate (n : Z) :
  1 <= n < INT32_MAX ->
  div32 (add32 n 1) 2 = Some ((n + n ÷ n) ÷ 2).
Proof.
  intros Hn. unfold div32, add32.
  rewrite wrap32_id by ranges.
  rewrite Z.quot_same by lia.
  cbn [Z.eqb]. rewrite andb_false_r. reflexivity.
Qed.

(** Below [INT32_MAX] the function is the floor of the square root: the
    loop ends, no division is undefined, and the value written is the
    integral root. *)
Lemma mathlib_sqrt_floor (n old : Z) :
  0 <= n < INT32_MAX ->
  exists r,
    mathlib_sqrt n (Some old) = Returns MATHLIB_OK (Some r)
    /\ r * r <= n < (r + 1) * (r + 1).
Proof.
  intros Hn. unfold mathlib_sqrt.
  destruct (Z.ltb_spec n 0); [lia|].
  destruct (Z.eqb_spec n 0) as [->|Hn0].
  - exists 0. split; [reflexivity | lia].
  - cbv zeta. rewrite sqrt_first_iterate by lia.
    destruct (sqrt_loop_floor n n ((n + n ÷ n) ÷ 2)) as (r & -> & Hr);
      [lia | lia | nia | reflexivity |].
    exists r. split; [reflexivity | assumption].
Qed.

Lemma mathlib_sqrt_negative (n old : Z) :
  n < 0 -> mathlib_sqrt n (Some old) = Returns MATHLIB_ERR_RANGE (Some old).
Proof.
  intros Hn. unfold mathlib_sqrt.
  destruct (Z.ltb_spec n 0); [reflexivity | lia].
Qed.

(** C1.  The specification promises the integral root [r], with
    [r * r <= n < (r + 1) * (r + 1)], for every [n >= 0].  At
    [n = INT32_MAX] the first iterate [(x + 1) / 2] overflows: the sum
    wraps to [INT32_MIN], the loop runs once on negative values and the
    function returns [MATHLIB_OK] having written [-1073741824], whose
    square is far above [n]. *)
Theorem mathlib_sqrt_int32_max_overflow :
  forall old : Z,
    mathlib_sqrt INT32_MAX (Some old)
      = Returns MATHLIB_OK (Some (-1073741824))
    /\ ~ ((-1073741824) * (-1073741824) <= INT32_MAX
          < (-1073741824 + 1) * (-1073741824 + 1)).
Proof.
  intros old. split.
  - vm_compute. reflexivity.
  - unfold INT32_MAX. lia.
Qed.

(** ** Division *)

(** C2 (amended).  For every 32-bit [a] and every non-zero 32-bit [b]
    other than the pair [a = INT32_MIN], [b = -1], [mathlib_divide]
    returns [MATHLIB_OK] and writes the truncating quotient [q = a / b],
    for which [a = b * q + r] with [|r| < |b|]. *)
Theorem mathlib_divide_truncating (a b old : Z) :
  in_int32 a -> in_int32 b -> b <> 0 -> ~ (a = INT32_MIN /\ b = -1) ->
  exists q r,
    mathlib_divide a b (Some old) = Returns MATHLIB_OK (Some q)
    /\ q = a ÷ b /\ in_int32 q /\ a = b * q + r /\ Z.abs r < Z.abs b.
Proof.
  intros Ha Hb Hb0 Hov. exists (a ÷ b), (Z.rem a b).
  unfold mathlib_divide, div32.
  destruct (Z.eqb_spec b 0); [contradiction|].
  destruct (Z.eqb_spec a INT32_MIN), (Z.eqb_spec b (-1));
    cbn [andb]; try tauto;
    (split; [reflexivity|]); (split; [reflexivity|]); (split; [|split]);
    try apply Z.quot_rem'; try (apply Z.rem_bound_abs; assumption);
    unfold in_int32, INT32_MIN, INT32_MAX in *;
    Z.to_euclidean_division_equations; nia.
Qed.

Lemma mathlib_divide_truncating_witness :
  exists q r,
    mathlib_divide (-7) 2 (Some 0) = Returns MATHLIB_OK (Some q)
    /\ q = (-7) ÷ 2 /\ in_int32 q /\ -7 = 2 * q + r /\ Z.abs r < Z.abs 2.
Proof.
  apply (mathlib_divide_truncating (-7) 2 0);
    ranges.
Defined.

(** C2 fails as stated at [a = INT32_MIN], [b = -1]: the quotient
    [2147483648] is not an [int32_t], so the division has no result, and
    no 32-bit [q] at all satisfies [a = b * q + r] with [|r| < |b|]. *)
Lemma mathlib_divide_int32_min_by_minus_one :
  ~ (exists q r,
       mathlib_divide INT32_MIN (-1) (Some 0) = Returns MATHLIB_OK (Some q)
       /\ INT32_MIN = -1 * q + r /\ Z.abs r < Z.abs (-1))
  /\ (forall q, in_int32 q ->
        ~ exists r, INT32_MIN = -1 * q + r /\ Z.abs r < Z.abs (-1)).
Proof.
  split.
  - intros (q & r & H & _). vm_compute in H. discriminate H.
  - unfold in_int32, INT32_MIN, INT32_MAX. intros q Hq (r & H1 & H2). lia.
Qed.

(** ** Output parameters *)

Lemma mathlib_divide_frame (a b : Z) (result : option Z) (code : Z)
    (cell : option Z) :
  mathlib_divide a b result = Returns code cell ->
  code <> MATHLIB_OK -> cell = result.
Proof.
  unfold mathlib_divide. destruct result as [old|].
  - destruct (b =? 0); [|destruct (div32 a b)];
      intros [= <- <-]; congruence.
  - intros [= <- <-]; reflexivity.
Qed.

Lemma mathlib_sqrt_frame (n : Z) (result : option Z) (code : Z)
    (cell : option Z) :
  mathlib_sqrt n result = Returns code cell ->
  code <> MATHLIB_OK -> cell = result.
Proof.
  unfold mathlib_sqrt. destruct result as [old|].
  - destruct (n <? 0); [|destruct (n =? 0)]; cbv zeta;
      [| |destruct (div32 (add32 n 1) 2) as [y0|];
           [destruct (sqrt_loop n n y0)|]];
      intros [= <- <-]; congruence.
  - intros [= <- <-]; reflexivity.
Qed.

Lemma mathlib_sum_array_frame (arr : option (list Z)) (len : nat)
    (result : option Z) (code : Z) (cell : option Z) :
  mathlib_sum_array arr len result = Returns code cell ->
  code <> MATHLIB_OK -> cell = result.
Proof.
  unfold mathlib_sum_array. destruct arr as [a|], result as [old|];
    try (intros [= <- <-]; reflexivity).
  destruct (sum_loop a 0 len 0); intros [= <- <-]; congruence.
Qed.

Lemma mathlib_find_max_frame (arr : option (list Z)) (len : nat)
    (result : option Z) (code : Z) (cell : option Z) :
  mathlib_find_max arr len result = Returns code cell ->
  code <> MATHLIB_OK -> cell = result.
Proof.
  unfold mathlib_find_max. destruct arr as [a|], result as [old|];
    try (intros [= <- <-]; reflexivity).
  destruct (len =? 0)%nat; [intros [= <- <-]; reflexivity|].
  destruct (bind _ _); intros [= <- <-]; congruence.
Qed.

Lemma mathlib_parse_int_frame (long_bits : Z) (str : option string)
    (result : option Z) (code : Z) (cell : option Z) :
  mathlib_parse_int long_bits str result = Returns code cell ->
  code <> MATHLIB_OK -> cell = result.
Proof.
  unfold mathlib_parse_int. destruct str as [s|], result as [old|];
    try (intros [= <- <-]; reflexivity).
  cbv zeta. destruct (_ || _); [intros [= <- <-]; reflexivity|].
  destruct (_ || _); intros [= <- <-]; congruence.
Qed.

(** C3.  Every fallible operation writes its output parameter only when
    it returns [MATHLIB_OK]: whenever the returned code is a failure
    code, the output cell holds what it held before the call.  In
    particular a division by zero returns [MATHLIB_ERR_ZERO] and leaves
    the quotient cell as it was, whatever the dividend and the cell. *)
Theorem output_written_only_on_ok :
  (forall a b result code cell,
      mathlib_divide a b result = Returns code cell ->
      code <> MATHLIB_OK -> cell = result)
  /\ (forall n result code cell,
      mathlib_sqrt n result = Returns code cell ->
      code <> MATHLIB_OK -> cell = result)
  /\ (forall arr len result code cell,
      mathlib_sum_array arr len result = Returns code cell ->
      code <> MATHLIB_OK -> cell = result)
  /\ (forall arr len result code cell,
      mathlib_find_max arr len result = Returns code cell ->
      code <> MATHLIB_OK -> cell = result)
  /\ (forall long_bits str result code cell,
      mathlib_parse_int long_bits str result = Returns code cell ->
      code <> MATHLIB_OK -> cell = result)
  /\ (forall a old,
      mathlib_divide a 0 (Some old) = Returns MATHLIB_ERR_ZERO (Some old)).
Proof.
  repeat split.
  - exact mathlib_divide_frame.
  - exact mathlib_sqrt_frame.
  - exact mathlib_sum_array_frame.
  - exact mathlib_find_max_frame.
  - exact mathlib_parse_int_frame.
Qed.

Lemma output_written_only_on_ok_witness :
  mathlib_divide 7 0 (Some 5) = Returns MATHLIB_ERR_ZERO (Some 5)
  /\ MATHLIB_ERR_ZERO <> MATHLIB_OK
  /\ Some 5 = Some 5.
Proof.
  split; [reflexivity|]. split; [discriminate|].
  exact (proj1 output_written_only_on_ok 7 0 (Some 5) MATHLIB_ERR_ZERO
           (Some 5) eq_refl ltac:(discriminate)).
Defined.

(** ** Arrays *)

Lemma skipn_nth_error_cons (a : list Z) (i : nat) (v : Z) :
  nth_error a i = Some v -> skipn i a = v :: skipn (S i) a.
Proof.
  revert i. induction a as [|w a IH]; intros [|i] H; try discriminate.
  - injection H as ->. reflexivity.
  - cbn in H. cbn [skipn]. exact (IH i H).
Qed.

Lemma nth_error_in_bounds (a : list Z) (i : nat) :
  (i < List.length a)%nat -> exists v, nth_error a i = Some v.
Proof.
  intros H. destruct (nth_error a i) as [v|] eqn:E; [eauto|].
  apply nth_error_None in E. lia.
Qed.

(** The 64-bit accumulator holds the exact partial sum as long as no more
    than [2^32] elements are added. *)
Lemma sum_loop_exact (a : list Z) (todo i : nat) (sum : Z) :
  Forall in_int32 a ->
  (i + todo <= List.length a)%nat -> Z.of_nat (i + todo) <= 2 ^ 32 ->
  INT32_MIN * Z.of_nat i <= sum <= INT32_MAX * Z.of_nat i ->
  sum_loop a i todo sum
    = Some (sum + exact_sum (firstn todo (skipn i a))).
Proof.
  intros Ha. revert i sum.
  induction todo as [|todo IH]; intros i sum Hlen Hbig Hsum; cbn [sum_loop].
  - cbn. f_equal. lia.
  - destruct (nth_error_in_bounds a i ltac:(lia)) as [v Hv].
    rewrite Hv. cbn [bind].
    assert (in_int32 v) as Hrange
      by (eapply Forall_forall; [exact Ha | eapply nth_error_In; exact Hv]).
    change (2 ^ 32) with 4294967296 in *.
    unfold add64. unfold in_int32, INT32_MIN, INT32_MAX in *.
    assert (in_int64 (sum + v)) as Hfit
      by (unfold in_int64, INT64_MIN, INT64_MAX; split; lia).
    rewrite (wrap64_id _ Hfit), IH by lia.
    rewrite (skipn_nth_error_cons a i v Hv).
    unfold exact_sum. cbn [firstn fold_right]. f_equal. lia.
Qed.

(** C8.  With non-null pointers and a length below [2^32] (and within
    the array), [mathlib_sum_array] returns [MATHLIB_OK] and writes the
    exact sum of the [len] elements: the 64-bit accumulator never wraps.
    In particular the sum of the whole array is exact, and summing
    [1, 2, 3, 4] writes [10]. *)
Theorem mathlib_sum_array_exact :
  (forall (a : list Z) (len : nat) (old : Z),
      Forall in_int32 a -> (len <= List.length a)%nat -> Z.of_nat len < 2 ^ 32 ->
      mathlib_sum_array (Some a) len (Some old)
        = Returns MATHLIB_OK (Some (exact_sum (firstn len a))))
  /\ (forall (a : list Z) (old : Z),
      Forall in_int32 a -> Z.of_nat (List.length a) < 2 ^ 32 ->
      mathlib_sum_array (Some a) (List.length a) (Some old)
        = Returns MATHLIB_OK (Some (exact_sum a)))
  /\ (forall old : Z,
      mathlib_sum_array (Some [1; 2; 3; 4]) 4 (Some old)
        = Returns MATHLIB_OK (Some 10)).
Proof.
  assert (forall (a : list Z) (len : nat) (old : Z),
      Forall in_int32 a -> (len <= List.length a)%nat -> Z.of_nat len < 2 ^ 32 ->
      mathlib_sum_array (Some a) len (Some old)
        = Returns MATHLIB_OK (Some (exact_sum (firstn len a)))) as Hmain.
  { intros a len old Ha Hlen Hbig. unfold mathlib_sum_array.
    rewrite (sum_loop_exact a len 0 0 Ha); [reflexivity | lia | lia |].
    unfold INT32_MIN, INT32_MAX. lia. }
  split; [exact Hmain|]. split.
  - intros a old Ha Hbig.
    rewrite (Hmain a (List.length a) old Ha (le_n _) Hbig), firstn_all.
    reflexivity.
  - intros old. reflexivity.
Qed.

Lemma mathlib_sum_array_exact_witness :
  mathlib_sum_array (Some [5; -7; 2147483647]) 3 (Some 0)
    = Returns MATHLIB_OK (Some (exact_sum [5; -7; 2147483647])).
Proof.
  apply (proj1 (proj2 mathlib_sum_array_exact) [5; -7; 2147483647] 0).
  - repeat constructor; unfold INT32_MIN, INT32_MAX; lia.
  - cbn. lia.
Defined.

Lemma nth_error_snoc (l : list Z) (w : Z) (j : nat) (v : Z) :
  nth_error (l ++ [w]) j = Some v ->
  (j < List.length l)%nat /\ nth_error l j = Some v
  \/ j = List.length l /\ v = w.
Proof.
  intros H. destruct (Nat.lt_ge_cases j (List.length l)) as [Hj|Hj].
  - left. rewrite nth_error_app1 in H by assumption. auto.
  - right. rewrite nth_error_app2 in H by assumption.
    destruct (j - List.length l)%nat as [|d] eqn:E; cbn in H.
    + injection H as ->. split; [lia | reflexivity].
    + destruct d; discriminate.
Qed.

(** The scan keeps the first occurrence of the maximum of what it has
    read. *)
Lemma scan_from_best (l pre : list Z) (best : nat * Z) :
  best_of pre best ->
  best_of (pre ++ l) (scan_from l (List.length pre) best).
Proof.
  revert pre best. induction l as [|v l IH]; intros pre [k m] Hbest.
  - cbn. rewrite app_nil_r. assumption.
  - cbn [scan_from snd].
    replace (pre ++ v :: l) with ((pre ++ [v]) ++ l)
      by (rewrite <- app_assoc; reflexivity).
    replace (S (List.length pre)) with (List.length (pre ++ [v]))
      by (rewrite length_app; cbn; lia).
    apply IH. destruct Hbest as (Hk & Hmax & Hfirst). cbn [fst snd] in *.
    assert (k < List.length pre)%nat as Hklen
      by (apply nth_error_Some; congruence).
    destruct (Z.gtb_spec v m) as [Hgt|Hle]; unfold best_of; cbn [fst snd].
    + split; [|split].
      * rewrite nth_error_app2, Nat.sub_diag by lia. reflexivity.
      * intros j w Hj. apply nth_error_snoc in Hj as [[_ Hj]|[_ ->]];
          [apply Hmax in Hj|]; lia.
      * intros j w Hlt Hj. apply nth_error_snoc in Hj as [[_ Hj]|[-> _]];
          [apply Hmax in Hj|]; lia.
    + split; [|split].
      * rewrite nth_error_app1 by assumption. assumption.
      * intros j w Hj. apply nth_error_snoc in Hj as [[_ Hj]|[_ ->]];
          [apply Hmax in Hj|]; lia.
      * intros j w Hlt Hj. apply nth_error_snoc in Hj as [[_ Hj]|[-> _]];
          [exact (Hfirst j w Hlt Hj) | lia].
Qed.

(** The loop of the code computes the value the scan ends with. *)
Lemma max_loop_scan (a : list Z) (todo i k : nat) (max : Z) :
  (i + todo <= List.length a)%nat ->
  max_loop a i todo max
    = Some (snd (scan_from (firstn todo (skipn i a)) i (k, max))).
Proof.
  revert i k max. induction todo as [|todo IH]; intros i k max Hlen.
  - reflexivity.
  - cbn [max_loop].
    destruct (nth_error_in_bounds a i ltac:(lia)) as [v Hv].
    rewrite Hv, (skipn_nth_error_cons a i v Hv). cbn [bind firstn scan_from snd].
    destruct (v >? max); apply IH; lia.
Qed.

(** C5.  With non-null pointers, [mathlib_find_max] returns
    [MATHLIB_ERR_RANGE] whenever [len = 0]; for [len > 0] it returns
    [MATHLIB_OK] and writes the maximum [m] of the [len] elements, the
    value the first-element-initialized, strictly-greater scan ends
    with, whose position [i] is the first occurrence of the maximum:
    no element is greater than [m] and every element before [i] is
    strictly smaller. *)
Theorem mathlib_find_max_first_maximum :
  (forall (a : list Z) (old : Z),
      mathlib_find_max (Some a) 0 (Some old)
        = Returns MATHLIB_ERR_RANGE (Some old))
  /\ (forall (a : list Z) (len : nat) (old : Z),
      (0 < len <= List.length a)%nat ->
      exists i m,
        mathlib_find_max (Some a) len (Some old)
          = Returns MATHLIB_OK (Some m)
        /\ first_max_scan (firstn len a) = Some (i, m)
        /\ (i < len)%nat /\ nth_error a i = Some m
        /\ (forall j v, (j < len)%nat -> nth_error a j = Some v -> v <= m)
        /\ (forall j v, (j < i)%nat -> nth_error a j = Some v -> v < m)).
Proof.
  split; [reflexivity|].
  intros a len old [Hpos Hlen].
  destruct a as [|v0 a]; [cbn in Hlen; lia|].
  destruct len as [|len]; [lia|]. cbn in Hlen.
  pose proof (scan_from_best (firstn len a) [v0] (O, v0)) as Hbest.
  destruct (scan_from (firstn len a) 1 (O, v0)) as [i m] eqn:Hscan.
  cbn [List.length] in Hbest. rewrite Hscan in Hbest.
  destruct Hbest as (Hi & Hmax & Hfirst).
  { repeat split; cbn [fst snd].
    - intros [|[|j]] v H; cbn in H; try discriminate.
      injection H as ->. lia.
    - intros j v H. lia. }
  change ([v0] ++ firstn len a) with (firstn (S len) (v0 :: a)) in *.
  cbn [fst snd] in *.
  assert (forall j v, (j < S len)%nat -> nth_error (v0 :: a) j = Some v ->
                      nth_error (firstn (S len) (v0 :: a)) j = Some v)
    as Hin.
  { intros j v Hj H. rewrite nth_error_firstn.
    destruct (Nat.ltb_spec j (S len)); [assumption | lia]. }
  rewrite nth_error_firstn in Hi.
  destruct (Nat.ltb_spec i (S len)) as [Hilen|]; [|discriminate].
  exists i, m. split; [|split; [|split; [|split; [|split]]]].
  - unfold mathlib_find_max. cbn [Nat.eqb nth_error bind].
    rewrite (max_loop_scan (v0 :: a) (S len - 1) 1 O v0) by (cbn; lia).
    replace (S len - 1)%nat with len by lia. cbn [skipn].
    rewrite Hscan. reflexivity.
  - cbn [firstn first_max_scan]. rewrite Hscan. reflexivity.
  - assumption.
  - assumption.
  - intros j v Hj H. exact (Hmax j v (Hin j v Hj H)).
  - intros j v Hj H. exact (Hfirst j v Hj (Hin j v ltac:(lia) H)).
Qed.

Lemma mathlib_find_max_first_maximum_witness :
  exists i m,
    mathlib_find_max (Some [1; 5; 3; 5]) 4 (Some 0)
      = Returns MATHLIB_OK (Some m)
    /\ first_max_scan (firstn 4 [1; 5; 3; 5]) = Some (i, m)
    /\ (i < 4)%nat /\ nth_error [1; 5; 3; 5] i = Some m
    /\ (forall j v, (j < 4)%nat -> nth_error [1; 5; 3; 5] j = Some v ->
                    v <= m)
    /\ (forall j v, (j < i)%nat -> nth_error [1; 5; 3; 5] j = Some v ->
                    v < m).
Proof.
  apply (proj2 mathlib_find_max_first_maximum [1; 5; 3; 5] 4%nat 0).
  cbn. lia.
Defined.

(** ** Geometry *)

Lemma wrap32_shift (z k : Z) : wrap32 (z + k * 4294967296) = wrap32 z.
Proof.
  unfold wrap32, wrap.
  change (2 ^ (32 - 1)) with 2147483648. change (2 ^ 32) with 4294967296.
  replace (z + k * 4294967296 + 2147483648)
    with (z + 2147483648 + k * 4294967296) by lia.
  rewrite Z_mod_plus_full. reflexivity.
Qed.

Lemma wrap32_add (a b : Z) : wrap32 (wrap32 a + wrap32 b) = wrap32 (a + b).
Proof.
  destruct (wrap32_congr a) as [ka ->], (wrap32_congr b) as [kb ->].
  replace (a + ka * 4294967296 + (b + kb * 4294967296))
    with (a + b + (ka + kb) * 4294967296) by lia.
  apply wrap32_shift.
Qed.

Lemma wrap32_mul (a b : Z) : wrap32 (wrap32 a * wrap32 b) = wrap32 (a * b).
Proof.
  destruct (wrap32_congr a) as [ka ->], (wrap32_congr b) as [kb ->].
  replace ((a + ka * 4294967296) * (b + kb * 4294967296))
    with (a * b + (a * kb + ka * b + ka * kb * 4294967296) * 4294967296)
    by ring.
  apply wrap32_shift.
Qed.

(** The value returned for two points is the exact squared distance
    reduced to 32 bits. *)
Lemma distance_squared_wrap (a b : Point) :
  mathlib_point_distance_squared (Some a) (Some b)
    = wrap32 (squared_distance a b).
Proof.
  unfold mathlib_point_distance_squared, squared_distance.
  cbv zeta. unfold add32, mul32, sub32.
  rewrite !wrap32_mul, wrap32_add. reflexivity.
Qed.

(** A square is [0] or [1] modulo [4]. *)
Lemma square_mod4 (u : Z) : exists p e, u * u = 4 * p + e /\ 0 <= e <= 1.
Proof.
  exists (u / 2 * (u / 2) + u / 2 * (u mod 2)), (u mod 2).
  pose proof (Z.div_mod u 2 ltac:(lia)) as Hu.
  pose proof (Z.mod_pos_bound u 2 ltac:(lia)) as He.
  split; [|lia].
  set (h := u / 2) in *. set (e := u mod 2) in *. clearbody h e. subst u.
  assert (e = 0 \/ e = 1) as [-> | ->] by lia; ring.
Qed.

(** A sum of two squares is never congruent to [-1] modulo [2^32]. *)
Lemma distance_squared_not_sentinel (a b : Point) :
  wrap32 (squared_distance a b) <> -1.
Proof.
  destruct (wrap32_congr (squared_distance a b)) as [k ->].
  unfold squared_distance.
  destruct (square_mod4 (x b - x a)) as (p & e & -> & He).
  destruct (square_mod4 (y b - y a)) as (q & f & -> & Hf).
  lia.
Qed.

(** C6 (amended).  [mathlib_point_distance_squared] returns [-1] exactly
    when one of the two pointers is null.  For two points it returns the
    squared Euclidean distance reduced to 32 bits by wrap-around, which
    is the exact, non-negative squared distance whenever that distance
    is at most [INT32_MAX]; the wrapped value can be negative but is
    never [-1], so the sentinel stays distinguishable. *)
Theorem mathlib_point_distance_squared_wraps :
  (forall a b : option Point,
      mathlib_point_distance_squared a b = -1 <-> a = None \/ b = None)
  /\ (forall a b : Point,
      mathlib_point_distance_squared (Some a) (Some b)
        = wrap32 (squared_distance a b))
  /\ (forall a b : Point,
      squared_distance a b <= INT32_MAX ->
      mathlib_point_distance_squared (Some a) (Some b)
        = squared_distance a b
      /\ 0 <= mathlib_point_distance_squared (Some a) (Some b)).
Proof.
  split; [|split].
  - intros [a|] [b|]; split; intros H; try (cbn; tauto); exfalso.
    + rewrite distance_squared_wrap in H.
      exact (distance_squared_not_sentinel a b H).
    + destruct H; discriminate.
  - exact distance_squared_wrap.
  - intros a b Hfit. rewrite distance_squared_wrap.
    assert (0 <= squared_distance a b)
      by (unfold squared_distance;
          pose proof (Z.square_nonneg (x b - x a));
          pose proof (Z.square_nonneg (y b - y a)); lia).
    rewrite wrap32_id by ranges.
    split; [reflexivity | assumption].
Qed.

Lemma mathlib_point_distance_squared_wraps_witness :
  mathlib_point_distance_squared
    (Some {| x := 1; y := -2 |}) (Some {| x := 4; y := 2 |}) = 25
  /\ 0 <= mathlib_point_distance_squared
            (Some {| x := 1; y := -2 |}) (Some {| x := 4; y := 2 |}).
Proof.
  apply (proj2 (proj2 mathlib_point_distance_squared_wraps)
           {| x := 1; y := -2 |} {| x := 4; y := 2 |}).
  vm_compute. discriminate.
Defined.

(** C6 fails as stated for the points [(0, 0)] and [(46341, 0)], both
    with 32-bit coordinates: the squared distance [2147488281] exceeds
    [INT32_MAX], the product wraps, and the value returned is negative. *)
Lemma mathlib_point_distance_squared_overflow :
  mathlib_point_distance_squared
    (Some {| x := 0; y := 0 |}) (Some {| x := 46341; y := 0 |})
    = -2147479015
  /\ ~ (mathlib_point_distance_squared
          (Some {| x := 0; y := 0 |}) (Some {| x := 46341; y := 0 |})
        = (46341 - 0) * (46341 - 0) + (0 - 0) * (0 - 0)
        /\ 0 <= mathlib_point_distance_squared
                  (Some {| x := 0; y := 0 |})
                  (Some {| x := 46341; y := 0 |})).
Proof.
  split; [reflexivity|]. intros [H _]. vm_compute in H. discriminate H.
Qed.

Lemma mathlib_rectangle_area_unfold (r : Rectangle) :
  mathlib_rectangle_area (Some r)
    = mul32 (abs32 (sub32 (x (bottom_right r)) (x (top_left r))))
            (abs32 (sub32 (y (bottom_right r)) (y (top_left r)))).
Proof. reflexivity. Qed.

Lemma wrap32_opp (d : Z) : wrap32 (- d) = wrap32 (- wrap32 d).
Proof.
  destruct (wrap32_congr d) as [k ->].
  replace (- (d + k * 4294967296)) with (- d + (- k) * 4294967296) by lia.
  symmetry. apply wrap32_shift.
Qed.

(** Negating a difference before taking its absolute value changes
    nothing, also when the difference wraps. *)
Lemma abs32_opp (d : Z) : abs32 (wrap32 (- d)) = abs32 (wrap32 d).
Proof.
  rewrite wrap32_opp. pose proof (wrap32_range d) as Hw.
  set (w := wrap32 d) in *. clearbody w.
  unfold in_int32, INT32_MIN, INT32_MAX in Hw.
  destruct (Z.eq_dec w (-2147483648)) as [->|Hmin]; [reflexivity|].
  rewrite (wrap32_id (- w))
    by ranges.
  unfold abs32, neg32.
  destruct (Z.ltb_spec (- w) 0), (Z.ltb_spec w 0); try lia.
  - rewrite Z.opp_involutive.
    apply wrap32_id. ranges.
  - symmetry. apply wrap32_id. ranges.
Qed.

Lemma abs32_exact (d : Z) :
  Z.abs d <= INT32_MAX -> abs32 (wrap32 d) = Z.abs d.
Proof.
  unfold INT32_MAX. intros Hd.
  rewrite wrap32_id by ranges.
  unfold abs32, neg32. destruct (Z.ltb_spec d 0); [|lia].
  rewrite wrap32_id by ranges. lia.
Qed.

(** On an [int32_t], [if (w < 0) w = -w;] leaves the absolute value
    reduced to 32 bits: [|w|] itself, except that [INT32_MIN] stays. *)
Lemma abs32_wrap_abs (w : Z) : in_int32 w -> abs32 w = wrap32 (Z.abs w).
Proof.
  intros Hw. unfold abs32, neg32. destruct (Z.ltb_spec w 0).
  - rewrite Z.abs_neq by lia. reflexivity.
  - rewrite Z.abs_eq by lia. symmetry. apply wrap32_id. exact Hw.
Qed.

(** The value returned for a rectangle, in closed form. *)
Lemma rectangle_area_value (r : Rectangle) :
  mathlib_rectangle_area (Some r)
    = wrap32 (Z.abs (wrap32 (x (bottom_right r) - x (top_left r)))
              * Z.abs (wrap32 (y (bottom_right r) - y (top_left r)))).
Proof.
  rewrite mathlib_rectangle_area_unfold. unfold sub32, mul32.
  rewrite !abs32_wrap_abs by apply wrap32_range.
  apply wrap32_mul.
Qed.

(** C7 (amended).  [mathlib_rectangle_area] returns [-1] for a null
    pointer.  For every rectangle it returns [wrap32 (|w| * |h|)], where
    [w] and [h] are the differences [bottom_right.x - top_left.x] and
    [bottom_right.y - top_left.y], each reduced to 32 bits by
    wrap-around, and [wrap32] is that reduction.  When the two exact
    differences are 32-bit values, that is the exact absolute width
    times absolute height reduced to 32 bits; it is the exact product
    itself whenever that product is at most [INT32_MAX].  Exchanging the
    two corners yields the same result, for every rectangle. *)
Theorem mathlib_rectangle_area_symmetric :
  mathlib_rectangle_area None = -1
  /\ (forall r : Rectangle,
      mathlib_rectangle_area (Some (swap_corners r))
        = mathlib_rectangle_area (Some r))
  /\ (forall r : Rectangle,
      exact_area r <= INT32_MAX ->
      mathlib_rectangle_area (Some r) = exact_area r)
  /\ (forall r : Rectangle,
      mathlib_rectangle_area (Some r)
        = wrap32 (Z.abs (wrap32 (x (bottom_right r) - x (top_left r)))
                  * Z.abs (wrap32 (y (bottom_right r) - y (top_left r)))))
  /\ (forall r : Rectangle,
      in_int32 (x (bottom_right r) - x (top_left r)) ->
      in_int32 (y (bottom_right r) - y (top_left r)) ->
      mathlib_rectangle_area (Some r) = wrap32 (exact_area r)).
Proof.
  split; [reflexivity|]. split; [|split; [|split]].
  - intros r. rewrite !mathlib_rectangle_area_unfold.
    unfold swap_corners, sub32. cbn [top_left bottom_right].
    replace (x (top_left r) - x (bottom_right r))
      with (- (x (bottom_right r) - x (top_left r))) by lia.
    replace (y (top_left r) - y (bottom_right r))
      with (- (y (bottom_right r) - y (top_left r))) by lia.
    rewrite !abs32_opp. reflexivity.
  - intros r. rewrite mathlib_rectangle_area_unfold.
    unfold exact_area, sub32, mul32.
    set (W := x (bottom_right r) - x (top_left r)).
    set (H := y (bottom_right r) - y (top_left r)).
    clearbody W H. intros Hfit.
    destruct (Z.eq_dec W 0) as [->|HW].
    { change (abs32 (wrap32 0)) with 0. reflexivity. }
    destruct (Z.eq_dec H 0) as [->|HH].
    { change (abs32 (wrap32 0)) with 0. rewrite !Z.mul_0_r. reflexivity. }
    unfold INT32_MAX in Hfit.
    rewrite !abs32_exact by (unfold INT32_MAX; nia).
    apply wrap32_id. ranges.
  - exact rectangle_area_value.
  - intros r HW HH.
    rewrite rectangle_area_value, (wrap32_id _ HW), (wrap32_id _ HH).
    reflexivity.
Qed.

Lemma mathlib_rectangle_area_symmetric_witness :
  mathlib_rectangle_area
    (Some {| top_left := {| x := 7; y := 1 |};
             bottom_right := {| x := 2; y := 5 |} |}) = 20
  /\ mathlib_rectangle_area
       (Some {| top_left := {| x := -5; y := 0 |};
                bottom_right := {| x := 65536; y := 65536 |} |})
     = wrap32
         (exact_area
            {| top_left := {| x := -5; y := 0 |};
               bottom_right := {| x := 65536; y := 65536 |} |}).
Proof.
  split.
  - apply (proj1 (proj2 (proj2 mathlib_rectangle_area_symmetric))
             {| top_left := {| x := 7; y := 1 |};
                bottom_right := {| x := 2; y := 5 |} |}).
    vm_compute. discriminate.
  - apply (proj2 (proj2 (proj2 (proj2 mathlib_rectangle_area_symmetric)))
             {| top_left := {| x := -5; y := 0 |};
                bottom_right := {| x := 65536; y := 65536 |} |});
      cbn [x y top_left bottom_right]; ranges.
Defined.

(** C7 fails as stated for the rectangle with corners [(0, 0)] and
    [(65536, 65536)]: width and height are [65536], their product
    [2^32] is not an [int32_t], and the value returned is [0]. *)
Lemma mathlib_rectangle_area_overflow :
  mathlib_rectangle_area
    (Some {| top_left := {| x := 0; y := 0 |};
             bottom_right := {| x := 65536; y := 65536 |} |}) = 0
  /\ ~ (mathlib_rectangle_area
          (Some {| top_left := {| x := 0; y := 0 |};
                   bottom_right := {| x := 65536; y := 65536 |} |})
        = Z.abs (65536 - 0) * Z.abs (65536 - 0)).
Proof.
  split; [reflexivity|]. intros H. vm_compute in H. discriminate H.
Qed.

(** ** Strings *)

(** How the character classes of the scanner exclude each other. *)
Lemma space_not_other (c : ascii) :
  isspace c = true ->
  isdigit c = false /\ is_nul c = false
  /\ Ascii.eqb c "-" = false /\ Ascii.eqb c "+" = false.
Proof.
  destruct c as [[] [] [] [] [] [] [] []]; vm_compute; intros H;
    try discriminate H; repeat split.
Qed.

Lemma digit_not_other (c : ascii) :
  isdigit c = true ->
  isspace c = false /\ is_nul c = false
  /\ Ascii.eqb c "-" = false /\ Ascii.eqb c "+" = false.
Proof.
  destruct c as [[] [] [] [] [] [] [] []]; vm_compute; intros H;
    try discriminate H; repeat split.
Qed.

Lemma isdigit_digit_of (c : ascii) :
  isdigit c = true -> exists d, digit_of c = Some d.
Proof.
  unfold isdigit. destruct (digit_of c) as [d|]; [eauto | discriminate].
Qed.

Lemma skip_spaces_app (ws r : string) :
  all_chars isspace ws = true -> starts_with isspace r = false ->
  skip_spaces (ws ++ r) = (String.length ws, r).
Proof.
  intros Hws Hr.
  induction ws as [|c ws IH];
    cbn [append skip_spaces all_chars String.length] in *.
  - destruct r as [|c r]; [reflexivity|].
    cbn [starts_with skip_spaces] in *. rewrite Hr. reflexivity.
  - apply andb_prop in Hws as [Hc Hws]. rewrite Hc, (IH Hws). reflexivity.
Qed.

Lemma skip_spaces_spec (s : string) :
  exists ws,
    s = (ws ++ snd (skip_spaces s))%string
    /\ String.length ws = fst (skip_spaces s)
    /\ all_chars isspace ws = true
    /\ starts_with isspace (snd (skip_spaces s)) = false.
Proof.
  induction s as [|c s (ws & Hs & Hk & Hws & Hr)]; cbn [skip_spaces].
  - exists EmptyString. repeat split.
  - destruct (isspace c) eqn:Hc.
    + destruct (skip_spaces s) as [k r]. cbn [fst snd] in *.
      exists (String c ws). cbn [append all_chars String.length].
      rewrite Hc, Hws, <- Hs, Hk. repeat split. assumption.
    + exists EmptyString. cbn [fst snd append all_chars String.length
        starts_with]. rewrite Hc. repeat split.
Qed.

Lemma scan_digits_app (ds r : string) (acc : Z) :
  all_chars isdigit ds = true -> starts_with isdigit r = false ->
  scan_digits (ds ++ r) acc
    = (acc * 10 ^ Z.of_nat (String.length ds) + decimal_value ds,
       String.length ds, r).
Proof.
  intros Hds Hr. revert acc. induction ds as [|c ds IH]; intros acc.
  - cbn [append String.length decimal_value Z.of_nat].
    replace (acc * 10 ^ 0 + 0) with acc by lia.
    destruct r as [|c r]; [reflexivity|].
    cbn [starts_with scan_digits] in *.
    unfold isdigit in Hr. destruct (digit_of c); [discriminate | reflexivity].
  - cbn [all_chars] in Hds. apply andb_prop in Hds as [Hc Hds].
    destruct (isdigit_digit_of c Hc) as [d Hd].
    cbn [append scan_digits decimal_value String.length].
    rewrite Hd, (IH Hds). f_equal. f_equal.
    rewrite Nat2Z.inj_succ, Z.pow_succ_r by lia. ring.
Qed.

Lemma scan_digits_spec (s : string) (acc : Z) :
  exists ds,
    s = (ds ++ snd (scan_digits s acc))%string
    /\ String.length ds = snd (fst (scan_digits s acc))
    /\ all_chars isdigit ds = true
    /\ fst (fst (scan_digits s acc))
       = acc * 10 ^ Z.of_nat (String.length ds) + decimal_value ds
    /\ starts_with isdigit (snd (scan_digits s acc)) = false.
Proof.
  revert acc. induction s as [|c s IH]; intros acc; cbn [scan_digits].
  - exists EmptyString. cbn. repeat split. lia.
  - destruct (digit_of c) as [d|] eqn:Hd.
    + destruct (IH (acc * 10 + d)) as (ds & Hs & Hk & Hds & Hv & Hr).
      destruct (scan_digits s (acc * 10 + d)) as [[v k] r].
      cbn [fst snd] in *. exists (String c ds).
      cbn [append all_chars decimal_value String.length].
      unfold isdigit at 1. rewrite Hd, Hds, <- Hs, Hk, Hv.
      repeat split; [|assumption].
      rewrite <- Hk, Nat2Z.inj_succ, Z.pow_succ_r by lia. ring.
    + exists EmptyString.
      cbn [fst snd append all_chars String.length starts_with
           decimal_value Z.of_nat].
      unfold isdigit. rewrite Hd. repeat split. lia.
Qed.

Lemma append_assoc (a b c : string) :
  ((a ++ b) ++ c)%string = (a ++ b ++ c)%string.
Proof.
  induction a as [|ch a IH]; cbn [append]; [reflexivity|].
  rewrite IH. reflexivity.
Qed.

Lemma length_append (a b : string) :
  String.length (a ++ b) = (String.length a + String.length b)%nat.
Proof.
  induction a as [|ch a IH]; cbn [append String.length Nat.add];
    [reflexivity|].
  rewrite IH. reflexivity.
Qed.

Lemma all_chars_app (p : ascii -> bool) (a b : string) :
  all_chars p (a ++ b) = all_chars p a && all_chars p b.
Proof.
  induction a as [|ch a IH]; cbn [append all_chars]; [reflexivity|].
  rewrite IH, andb_assoc. reflexivity.
Qed.

Lemma all_chars_impl (p q : ascii -> bool) (a : string) :
  (forall c, p c = true -> q c = true) ->
  all_chars p a = true -> all_chars q a = true.
Proof.
  intros Hpq. induction a as [|ch a IH]; cbn [all_chars]; [reflexivity|].
  intros H. apply andb_prop in H as [Hc Ha].
  rewrite (Hpq ch Hc), (IH Ha). reflexivity.
Qed.

(** The character at the end of a prefix is the first of what follows,
    or the terminator. *)
Lemma char_at_app (pre rest : string) :
  is_nul (char_at (pre ++ rest) (String.length pre)) = ends_here rest.
Proof.
  unfold char_at. induction pre as [|ch pre IH]; cbn [append String.length].
  - destruct rest as [|c rest]; reflexivity.
  - cbn [get]. exact IH.
Qed.

Lemma c_text_app (t rest : string) :
  all_chars (fun c => negb (is_nul c)) t = true ->
  ends_here rest = true ->
  c_text (t ++ rest) = t.
Proof.
  intros Ht Hrest. induction t as [|ch t IH]; cbn [append c_text].
  - destruct rest as [|c rest]; [reflexivity|].
    cbn [ends_here c_text] in *. rewrite Hrest. reflexivity.
  - cbn [all_chars] in Ht. apply andb_prop in Ht as [Hc Ht].
    apply negb_true_iff in Hc. rewrite Hc, (IH Ht). reflexivity.
Qed.

Lemma c_text_split (s : string) :
  exists rest,
    s = (c_text s ++ rest)%string /\ ends_here rest = true.
Proof.
  induction s as [|ch s (rest & Hs & Hrest)]; cbn [c_text].
  - exists EmptyString. split; reflexivity.
  - destruct (is_nul ch) eqn:Hc.
    + exists (String ch s). split; [reflexivity | exact Hc].
    + exists rest. cbn [append]. rewrite <- Hs. split; [reflexivity | exact Hrest].
Qed.

Lemma ends_here_no_digit (rest : string) :
  ends_here rest = true -> starts_with isdigit rest = false.
Proof.
  destruct rest as [|c rest]; [reflexivity|]. cbn [ends_here starts_with].
  intros Hc. destruct (isdigit c) eqn:Hd; [|reflexivity].
  apply digit_not_other in Hd as (_ & Hn & _). congruence.
Qed.

(** *** Parsing, on a platform whose [long] has at least 32 bits *)

Section ParseInt.

Variable long_bits : Z.
Hypothesis long_wide : 32 <= long_bits.

Lemma LONG_bounds :
  LONG_MIN long_bits <= INT32_MIN /\ INT32_MAX <= LONG_MAX long_bits.
Proof.
  unfold LONG_MIN, LONG_MAX, INT32_MIN, INT32_MAX.
  assert (2 ^ 31 <= 2 ^ (long_bits - 1))
    by (apply Z.pow_le_mono_r; lia).
  change (2 ^ 31) with 2147483648 in *. lia.
Qed.

(** What [mathlib_parse_int] returns, in terms of what the scanner
    found: white space up to [s1], a sign up to the digits [ds], and
    [rest] after the digits. *)
Lemma mathlib_parse_int_shape (s s1 ds rest : string)
    (k1 k2 : nat) (neg : bool) (old : Z) :
  skip_spaces s = (k1, s1) ->
  scan_sign s1 = (neg, k2, (ds ++ rest)%string) ->
  all_chars isdigit ds = true -> starts_with isdigit rest = false ->
  is_nul (char_at s (k1 + k2 + String.length ds)) = ends_here rest ->
  let val := if neg then - decimal_value ds else decimal_value ds in
  mathlib_parse_int long_bits (Some s) (Some old)
    = if negb (String.length ds =? 0)%nat && ends_here rest
         && fits_int32 val
      then Returns MATHLIB_OK (Some val)
      else Returns MATHLIB_ERR_RANGE (Some old).
Proof.
  intros H1 H2 Hds Hrest Hend val.
  destruct LONG_bounds as [Hmin Hmax].
  unfold mathlib_parse_int, strtol. rewrite H1, H2.
  rewrite (scan_digits_app ds rest 0 Hds Hrest).
  replace (0 * 10 ^ Z.of_nat (String.length ds) + decimal_value ds)
    with (decimal_value ds) by lia.
  fold val. unfold fits_int32.
  destruct (String.length ds) as [|n] eqn:Hlen; [reflexivity|].
  cbn [Nat.eqb negb andb].
  destruct (Z.gtb_spec val (LONG_MAX long_bits)) as [Hhi|Hhi].
  { cbn [errno]. change (negb (ERANGE =? 0)) with true. cbn [orb].
    destruct (Z.leb_spec val INT32_MAX); [lia|].
    rewrite andb_false_r, andb_false_r. reflexivity. }
  destruct (Z.ltb_spec val (LONG_MIN long_bits)) as [Hlo|Hlo].
  { cbn [errno]. change (negb (ERANGE =? 0)) with true. cbn [orb].
    destruct (Z.leb_spec INT32_MIN val); [lia|].
    rewrite andb_false_r. reflexivity. }
  cbn [errno endptr value]. change (negb (0 =? 0)) with false.
  rewrite Hend.
  replace ((k1 + k2 + S n =? 0)%nat) with false
    by (symmetry; apply Nat.eqb_neq; lia).
  cbn [orb]. destruct (ends_here rest); cbn [negb andb]; [|reflexivity].
  destruct (Z.ltb_spec val INT32_MIN), (Z.gtb_spec val INT32_MAX),
    (Z.leb_spec INT32_MIN val), (Z.leb_spec val INT32_MAX);
    cbn [orb andb]; try lia; try reflexivity.
  rewrite wrap32_id by (unfold in_int32; lia). reflexivity.
Qed.

Lemma scan_sign_spec (s1 : string) :
  exists sg,
    s1 = (sg ++ snd (scan_sign s1))%string
    /\ String.length sg = snd (fst (scan_sign s1))
    /\ (sg = EmptyString /\ fst (fst (scan_sign s1)) = false
        \/ sg = "+"%string /\ fst (fst (scan_sign s1)) = false
        \/ sg = "-"%string /\ fst (fst (scan_sign s1)) = true).
Proof.
  destruct s1 as [|c s1]; cbn [scan_sign].
  - exists EmptyString. cbn. auto.
  - destruct (Ascii.eqb_spec c "-") as [->|Hm].
    + exists "-"%string. cbn. repeat split. right. right. auto.
    + destruct (Ascii.eqb_spec c "+") as [->|Hp].
      * exists "+"%string. cbn. repeat split. right. left. auto.
      * exists EmptyString. cbn. auto.
Qed.

Lemma sign_no_nul (sg : string) :
  sg = EmptyString \/ sg = "+"%string \/ sg = "-"%string ->
  all_chars (fun c => negb (is_nul c)) sg = true.
Proof. intros [-> | [-> | ->]]; reflexivity. Qed.

(** Whatever the string, the call either rejects it or accepts it as the
    decimal text of the value it writes. *)
Lemma mathlib_parse_int_cases (s : string) (old : Z) :
  mathlib_parse_int long_bits (Some s) (Some old)
    = Returns MATHLIB_ERR_RANGE (Some old)
  \/ exists v,
      mathlib_parse_int long_bits (Some s) (Some old)
        = Returns MATHLIB_OK (Some v)
      /\ decimal_text (c_text s) v /\ in_int32 v.
Proof.
  destruct (skip_spaces_spec s) as (ws & Hs & Hk1 & Hws & _).
  destruct (skip_spaces s) as [k1 s1] eqn:H1. cbn [fst snd] in *.
  destruct (scan_sign_spec s1) as (sg & Hs1 & Hk2 & Hsg).
  destruct (scan_sign s1) as [[neg k2] s2] eqn:H2. cbn [fst snd] in *.
  destruct (scan_digits_spec s2 0) as (ds & Hs2 & _ & Hds & _ & Hrest).
  set (rest := snd (scan_digits s2 0)) in *. clearbody rest.
  assert (s = ((ws ++ sg ++ ds) ++ rest)%string) as Hall
    by (rewrite !append_assoc, <- Hs2, <- Hs1; exact Hs).
  pose proof (mathlib_parse_int_shape s s1 ds rest k1 k2 neg old H1)
    as Hshape.
  rewrite <- Hs2 in Hshape. specialize (Hshape H2 Hds Hrest).
  cbv zeta in Hshape. rewrite Hshape.
  - destruct (String.length ds =? 0)%nat eqn:Hlen; [left; reflexivity|].
    destruct (ends_here rest) eqn:Hend; [|left; reflexivity].
    destruct (fits_int32 _) eqn:Hfit; [|left; reflexivity].
    right. cbn [negb andb]. eexists. split; [reflexivity|]. split.
    + rewrite Hall, c_text_app; [|rewrite !all_chars_app|exact Hend].
      * exists ws, sg, ds. repeat split; try assumption.
        { intros ->. discriminate Hlen. }
        { destruct Hsg as [[-> ->] | [[-> ->] | [-> ->]]]; auto. }
      * rewrite (all_chars_impl isspace _ ws), (sign_no_nul sg),
          (all_chars_impl isdigit _ ds); try assumption; try reflexivity.
        { intros c Hc. apply digit_not_other in Hc as (_ & -> & _).
          reflexivity. }
        { destruct Hsg as [[-> _] | [[-> _] | [-> _]]]; auto. }
        { intros c Hc. apply space_not_other in Hc as (_ & -> & _).
          reflexivity. }
    + unfold fits_int32 in Hfit. apply andb_prop in Hfit as [Hlo Hhi].
      apply Z.leb_le in Hlo, Hhi. split; assumption.
  - subst k1 k2. rewrite Hall at 1.
    replace (String.length ws + String.length sg + String.length ds)%nat
      with (String.length (ws ++ sg ++ ds))
      by (rewrite !length_append; lia).
    apply char_at_app.
Qed.

(** The call on a string made of white space, a sign, digits and a tail
    that does not continue the digits. *)
Lemma mathlib_parse_int_decomposed
    (ws sg ds tail : string) (neg : bool) (old : Z) :
  all_chars isspace ws = true ->
  (sg = EmptyString /\ neg = false \/ sg = "+"%string /\ neg = false
   \/ sg = "-"%string /\ neg = true) ->
  ds <> EmptyString -> all_chars isdigit ds = true ->
  starts_with isdigit tail = false ->
  mathlib_parse_int long_bits (Some (ws ++ sg ++ ds ++ tail)%string)
      (Some old)
    = if ends_here tail
         && fits_int32 (if neg then - decimal_value ds
                        else decimal_value ds)
      then Returns MATHLIB_OK
             (Some (if neg then - decimal_value ds else decimal_value ds))
      else Returns MATHLIB_ERR_RANGE (Some old).
Proof.
  intros Hws Hsg Hne Hds Htail.
  destruct ds as [|d ds]; [contradiction|].
  pose proof Hds as Hd. cbn [all_chars] in Hd.
  apply andb_prop in Hd as [Hd _].
  destruct (digit_not_other d Hd) as (Hdsp & _ & Hdm & Hdp).
  rewrite (mathlib_parse_int_shape _ (sg ++ String d ds ++ tail)
             (String d ds) tail (String.length ws) (String.length sg)
             neg old).
  - reflexivity.
  - apply skip_spaces_app; [assumption|].
    destruct Hsg as [[-> _] | [[-> _] | [-> _]]];
      cbn [append starts_with]; [assumption | reflexivity | reflexivity].
  - destruct Hsg as [[-> ->] | [[-> ->] | [-> ->]]];
      cbn [append scan_sign String.length];
      [rewrite Hdm, Hdp; reflexivity | reflexivity | reflexivity].
  - assumption.
  - assumption.
  - replace (String.length ws + String.length sg
             + String.length (String d ds))%nat
      with (String.length (ws ++ sg ++ String d ds))
      by (rewrite !length_append; lia).
    rewrite <- (char_at_app (ws ++ sg ++ String d ds) tail).
    rewrite !append_assoc. reflexivity.
Qed.

Lemma mathlib_parse_int_accepts (s : string) (old v : Z) :
  decimal_text (c_text s) v -> in_int32 v ->
  mathlib_parse_int long_bits (Some s) (Some old)
    = Returns MATHLIB_OK (Some v).
Proof.
  intros (ws & sg & ds & Ht & Hws & Hne & Hds & Hsg) [Hlo Hhi].
  destruct (c_text_split s) as (tail & Hs & Hend).
  rewrite Ht, !append_assoc in Hs. rewrite Hs.
  assert (fits_int32 v = true) as Hfit
    by (unfold fits_int32; apply andb_true_intro; split;
        apply Z.leb_le; assumption).
  destruct Hsg as [[-> ->] | [[-> ->] | [-> ->]]].
  - rewrite (mathlib_parse_int_decomposed ws "" ds tail false)
      by auto using ends_here_no_digit.
    rewrite Hend, Hfit. reflexivity.
  - rewrite (mathlib_parse_int_decomposed ws "+" ds tail false)
      by auto using ends_here_no_digit.
    rewrite Hend, Hfit. reflexivity.
  - rewrite (mathlib_parse_int_decomposed ws "-" ds tail true)
      by auto using ends_here_no_digit.
    rewrite Hend, Hfit. reflexivity.
Qed.

(** C4.  With non-null arguments and a [long] of at least 32 bits,
    [mathlib_parse_int] returns [MATHLIB_ERR_RANGE] exactly when the
    text of the string is not, as a whole, a base-10 integer within the
    32-bit signed range, and otherwise returns [MATHLIB_OK] and writes
    the value the text denotes.  In particular ["42"] is accepted with
    value [42], while ["42x"] and the empty string are rejected. *)
Theorem mathlib_parse_int_decimal (old : Z) :
  (forall (s : string) (v : Z),
      decimal_text (c_text s) v -> in_int32 v ->
      mathlib_parse_int long_bits (Some s) (Some old)
        = Returns MATHLIB_OK (Some v))
  /\ (forall s : string,
      mathlib_parse_int long_bits (Some s) (Some old)
        = Returns MATHLIB_ERR_RANGE (Some old)
      <-> ~ exists v, decimal_text (c_text s) v /\ in_int32 v)
  /\ mathlib_parse_int long_bits (Some "42"%string) (Some old)
      = Returns MATHLIB_OK (Some 42)
  /\ mathlib_parse_int long_bits (Some "42x"%string) (Some old)
      = Returns MATHLIB_ERR_RANGE (Some old)
  /\ mathlib_parse_int long_bits (Some ""%string) (Some old)
      = Returns MATHLIB_ERR_RANGE (Some old).
Proof.
  split; [|split; [|split; [|split]]].
  - intros s v. apply mathlib_parse_int_accepts.
  - intros s. split.
    + intros Herr (v & Hv & Hrange).
      rewrite (mathlib_parse_int_accepts s old v Hv Hrange) in Herr.
      discriminate Herr.
    + intros Hno.
      destruct (mathlib_parse_int_cases s old)
        as [Herr | (v & _ & Hv & Hrange)]; [exact Herr|].
      exfalso. apply Hno. exists v. split; assumption.
  - exact (mathlib_parse_int_decomposed "" "" "42" "" false old
             eq_refl (or_introl (conj eq_refl eq_refl))
             ltac:(discriminate) eq_refl eq_refl).
  - exact (mathlib_parse_int_decomposed "" "" "42" "x" false old
             eq_refl (or_introl (conj eq_refl eq_refl))
             ltac:(discriminate) eq_refl eq_refl).
  - destruct (mathlib_parse_int_cases "" old)
      as [Herr | (v & _ & (ws & sg & ds & Ht & _ & Hne & _) & _)];
      [exact Herr|].
    exfalso. apply Hne. cbn [c_text] in Ht.
    destruct ws; [|discriminate Ht].
    destruct sg; [|discriminate Ht].
    destruct ds; [reflexivity | discriminate Ht].
Qed.

Lemma digit_of_range (c : ascii) (d : Z) :
  digit_of c = Some d -> 0 <= d <= 9.
Proof.
  unfold digit_of.
  destruct (Z.leb_spec 48 (Z.of_N (N_of_ascii c)));
    destruct (Z.leb_spec (Z.of_N (N_of_ascii c)) 57);
    cbn [andb]; intros [= <-]; lia.
Qed.

Lemma decimal_value_nonneg (ds : string) : 0 <= decimal_value ds.
Proof.
  induction ds as [|c ds IH]; cbn [decimal_value]; [lia|].
  destruct (digit_of c) as [d|] eqn:Hd; [|assumption].
  apply digit_of_range in Hd.
  assert (0 <= 10 ^ Z.of_nat (String.length ds))
    by (apply Z.pow_nonneg; lia).
  nia.
Qed.

(** C9.  Because the conversion is [strtol]'s, leading white space and
    an explicit [+] are accepted: [" 42"] and ["+42"] yield [MATHLIB_OK]
    with [42], and so does every in-range digit string behind white
    space, with or without a [+]; a character other than a digit or the
    terminator after the number still makes the call fail. *)
Theorem mathlib_parse_int_space_and_plus (old : Z) :
  mathlib_parse_int long_bits (Some " 42"%string) (Some old)
    = Returns MATHLIB_OK (Some 42)
  /\ mathlib_parse_int long_bits (Some "+42"%string) (Some old)
      = Returns MATHLIB_OK (Some 42)
  /\ (forall ws ds : string,
        all_chars isspace ws = true ->
        ds <> EmptyString -> all_chars isdigit ds = true ->
        decimal_value ds <= INT32_MAX ->
        mathlib_parse_int long_bits (Some (ws ++ ds)%string) (Some old)
          = Returns MATHLIB_OK (Some (decimal_value ds))
        /\ mathlib_parse_int long_bits (Some (ws ++ "+" ++ ds)%string)
              (Some old)
            = Returns MATHLIB_OK (Some (decimal_value ds))
        /\ (forall (c : ascii) (tail : string),
              is_nul c = false -> isdigit c = false ->
              mathlib_parse_int long_bits
                  (Some (ws ++ "+" ++ ds ++ String c tail)%string)
                  (Some old)
                = Returns MATHLIB_ERR_RANGE (Some old))).
Proof.
  assert (forall ws sg ds : string,
      all_chars isspace ws = true ->
      sg = EmptyString \/ sg = "+"%string ->
      ds <> EmptyString -> all_chars isdigit ds = true ->
      decimal_value ds <= INT32_MAX ->
      mathlib_parse_int long_bits (Some (ws ++ sg ++ ds)%string) (Some old)
        = Returns MATHLIB_OK (Some (decimal_value ds))) as Hok.
  { intros ws sg ds Hws Hsg Hne Hds Hmax.
    pose proof (mathlib_parse_int_decomposed ws sg ds "" false old Hws)
      as H.
    replace (ds ++ "")%string with ds in H
      by (clear; induction ds as [|c ds IH]; cbn [append];
          [reflexivity | rewrite <- IH; reflexivity]).
    rewrite H; try assumption; try reflexivity.
    - cbn [ends_here andb]. unfold fits_int32.
      pose proof (decimal_value_nonneg ds).
      destruct (Z.leb_spec INT32_MIN (decimal_value ds));
        [|unfold INT32_MIN in *; lia].
      destruct (Z.leb_spec (decimal_value ds) INT32_MAX); [reflexivity|lia].
    - destruct Hsg as [-> | ->]; auto. }
  split; [|split].
  - exact (Hok " "%string ""%string "42"%string eq_refl (or_introl eq_refl)
             ltac:(discriminate) eq_refl ltac:(vm_compute; discriminate)).
  - exact (Hok ""%string "+"%string "42"%string eq_refl (or_intror eq_refl)
             ltac:(discriminate) eq_refl ltac:(vm_compute; discriminate)).
  - intros ws ds Hws Hne Hds Hmax. split; [|split].
    + exact (Hok ws ""%string ds Hws (or_introl eq_refl) Hne Hds Hmax).
    + exact (Hok ws "+"%string ds Hws (or_intror eq_refl) Hne Hds Hmax).
    + intros c tail Hnul Hdig.
      rewrite (mathlib_parse_int_decomposed ws "+" ds (String c tail)
                 false old Hws); auto.
      cbn [ends_here]. rewrite Hnul. reflexivity.
Qed.

End ParseInt.

Lemma mathlib_parse_int_decimal_witness :
  mathlib_parse_int 64 (Some "-17"%string) (Some 0)
    = Returns MATHLIB_OK (Some (-17)).
Proof.
  apply (proj1 (mathlib_parse_int_decimal 64 ltac:(lia) 0) "-17"%string).
  - exists ""%string, "-"%string, "17"%string.
    repeat split; try discriminate. right. right. split; reflexivity.
  - ranges.
Defined.

Lemma mathlib_parse_int_space_and_plus_witness :
  mathlib_parse_int 64 (Some " 42"%string) (Some 0)
    = Returns MATHLIB_OK (Some 42).
Proof.
  apply (proj1 (mathlib_parse_int_space_and_plus 64 ltac:(lia) 0)).
Defined.

Lemma strlen_c_text (s : string) : strlen s = String.length (c_text s).
Proof.
  induction s as [|c s IH]; cbn [strlen c_text]; [reflexivity|].
  destruct (is_nul c); cbn [String.length]; [reflexivity|].
  rewrite IH. reflexivity.
Qed.

Lemma c_text_no_nul (s : string) :
  all_chars (fun c => negb (is_nul c)) s = true -> c_text s = s.
Proof.
  induction s as [|c s IH]; cbn [all_chars c_text]; [reflexivity|].
  intros H. apply andb_prop in H as [Hc Hs].
  apply negb_true_iff in Hc. rewrite Hc, (IH Hs). reflexivity.
Qed.

(** C10.  [mathlib_strlen] is total: for a null pointer it returns [0],
    and for a string it returns the length of its text, the number of
    characters before the terminator; that is the number of stored
    characters when none of them is a NUL. *)
Theorem mathlib_strlen_total :
  mathlib_strlen None = O
  /\ (forall s : string,
        mathlib_strlen (Some s) = String.length (c_text s))
  /\ (forall s : string,
        all_chars (fun c => negb (is_nul c)) s = true ->
        mathlib_strlen (Some s) = String.length s).
Proof.
  split; [reflexivity|]. split.
  - intros s. apply strlen_c_text.
  - intros s Hs. cbn [mathlib_strlen].
    rewrite strlen_c_text, (c_text_no_nul s Hs). reflexivity.
Qed.

Lemma mathlib_strlen_total_witness :
  mathlib_strlen (Some "Point(3, -2)"%string) = 12%nat.
Proof.
  apply (proj2 (proj2 mathlib_strlen_total) "Point(3, -2)"%string).
  reflexivity.
Defined.

(** * Further properties of the library *)

(** ** Addition and multiplication *)

Lemma wrap32_fixed_iff (z : Z) : wrap32 z = z <-> in_int32 z.
Proof.
  split; [|apply wrap32_id].
  intros H. rewrite <- H. apply wrap32_range.
Qed.

(** [mathlib_add] and [mathlib_multiply] always return a 32-bit value,
    congruent to the exact result modulo [2^32], and equal to the exact
    result precisely when that result is a 32-bit value. *)
Theorem mathlib_add_multiply_exact_iff (a b : Z) :
  (in_int32 (mathlib_add a b)
   /\ (exists k, mathlib_add a b = a + b + k * 4294967296)
   /\ (mathlib_add a b = a + b <-> in_int32 (a + b)))
  /\ (in_int32 (mathlib_multiply a b)
      /\ (exists k, mathlib_multiply a b = a * b + k * 4294967296)
      /\ (mathlib_multiply a b = a * b <-> in_int32 (a * b))).
Proof.
  unfold mathlib_add, mathlib_multiply, add32, mul32.
  split; (split; [apply wrap32_range|]);
    (split; [apply wrap32_congr | apply wrap32_fixed_iff]).
Qed.

Lemma wrap32_add_l (a b : Z) : wrap32 (wrap32 a + b) = wrap32 (a + b).
Proof.
  destruct (wrap32_congr a) as [k ->].
  replace (a + k * 4294967296 + b) with (a + b + k * 4294967296) by lia.
  apply wrap32_shift.
Qed.

Lemma wrap32_mul_l (a b : Z) : wrap32 (wrap32 a * b) = wrap32 (a * b).
Proof.
  destruct (wrap32_congr a) as [k ->].
  replace ((a + k * 4294967296) * b) with (a * b + k * b * 4294967296)
    by ring.
  apply wrap32_shift.
Qed.

(** Overflow does not disturb the algebra: with wrap-around, addition
    and multiplication stay commutative and associative, and
    multiplication distributes over addition, for all arguments. *)
Theorem mathlib_add_multiply_ring (a b c : Z) :
  mathlib_add a b = mathlib_add b a
  /\ mathlib_multiply a b = mathlib_multiply b a
  /\ mathlib_add (mathlib_add a b) c = mathlib_add a (mathlib_add b c)
  /\ mathlib_multiply (mathlib_multiply a b) c
     = mathlib_multiply a (mathlib_multiply b c)
  /\ mathlib_multiply a (mathlib_add b c)
     = mathlib_add (mathlib_multiply a b) (mathlib_multiply a c).
Proof.
  unfold mathlib_add, mathlib_multiply, add32, mul32.
  split; [f_equal; lia|]. split; [f_equal; lia|]. split; [|split].
  - rewrite wrap32_add_l, (Z.add_comm a (wrap32 (b + c))), wrap32_add_l.
    f_equal. lia.
  - rewrite wrap32_mul_l, (Z.mul_comm a (wrap32 (b * c))), wrap32_mul_l.
    f_equal. lia.
  - rewrite (Z.mul_comm a (wrap32 (b + c))), wrap32_mul_l, wrap32_add.
    f_equal. lia.
Qed.

(** ** Null pointers *)

(** Each fallible operation reports [MATHLIB_ERR_NULL] exactly when one
    of its pointer arguments is null; the null check comes first, so a
    null output pointer wins over a zero divisor, a negative argument
    or an empty array. *)
Theorem err_null_iff_null_pointer :
  (forall a b result,
      (exists cell,
          mathlib_divide a b result = Returns MATHLIB_ERR_NULL cell)
      <-> result = None)
  /\ (forall n result,
      (exists cell, mathlib_sqrt n result = Returns MATHLIB_ERR_NULL cell)
      <-> result = None)
  /\ (forall arr len result,
      (exists cell,
          mathlib_sum_array arr len result = Returns MATHLIB_ERR_NULL cell)
      <-> arr = None \/ result = None)
  /\ (forall arr len result,
      (exists cell,
          mathlib_find_max arr len result = Returns MATHLIB_ERR_NULL cell)
      <-> arr = None \/ result = None)
  /\ (forall long_bits str result,
      (exists cell,
          mathlib_parse_int long_bits str result
            = Returns MATHLIB_ERR_NULL cell)
      <-> str = None \/ result = None).
Proof.
  split; [|split; [|split; [|split]]].
  - intros a b [old|]; (split; [intros [cell H] | intros H]);
      try discriminate H; try reflexivity; try (eexists; reflexivity).
    exfalso. revert H. unfold mathlib_divide.
    destruct (b =? 0); [|destruct (div32 a b)]; discriminate.
  - intros n [old|]; (split; [intros [cell H] | intros H]);
      try discriminate H; try reflexivity; try (eexists; reflexivity).
    exfalso. revert H. unfold mathlib_sqrt.
    destruct (n <? 0); [|destruct (n =? 0)]; cbv zeta;
      [| |destruct (div32 (add32 n 1) 2) as [y0|];
           [destruct (sqrt_loop n n y0)|]];
      discriminate.
  - intros [a|] len [old|]; (split; [intros [cell H] | intros H]);
      try (destruct H as [H|H]; discriminate H); try tauto;
      try (eexists; reflexivity).
    exfalso. revert H. unfold mathlib_sum_array.
    destruct (sum_loop a 0 len 0); discriminate.
  - intros [a|] len [old|]; (split; [intros [cell H] | intros H]);
      try (destruct H as [H|H]; discriminate H); try tauto;
      try (eexists; reflexivity).
    exfalso. revert H. unfold mathlib_find_max.
    destruct (len =? 0)%nat; [discriminate|].
    destruct (bind _ _); discriminate.
  - intros long_bits [s|] [old|]; (split; [intros [cell H] | intros H]);
      try (destruct H as [H|H]; discriminate H); try tauto;
      try (eexists; reflexivity).
    exfalso. revert H. unfold mathlib_parse_int. cbv zeta.
    destruct (_ || _); [discriminate|].
    destruct (_ || _); discriminate.
Qed.

(** ** Division and multiplication together *)

(** Where the quotient is representable, it is no larger than the
    dividend in absolute value, and multiplying it back and adding the
    remainder recovers the dividend inside 32 bits, without wrap-around;
    an exact division is undone by [mathlib_multiply]. *)
Theorem mathlib_divide_multiply_back (a b old : Z) :
  in_int32 a -> in_int32 b -> b <> 0 -> ~ (a = INT32_MIN /\ b = -1) ->
  exists q,
    mathlib_divide a b (Some old) = Returns MATHLIB_OK (Some q)
    /\ Z.abs q <= Z.abs a
    /\ mathlib_multiply b q = a - Z.rem a b
    /\ mathlib_add (mathlib_multiply b q) (Z.rem a b) = a
    /\ (Z.rem a b = 0 -> mathlib_multiply b q = a).
Proof.
  intros Ha Hb Hb0 Hov. exists (a ÷ b).
  assert (mathlib_divide a b (Some old) = Returns MATHLIB_OK (Some (a ÷ b)))
    as Hdiv.
  { unfold mathlib_divide, div32.
    destruct (Z.eqb_spec b 0); [contradiction|].
    destruct (Z.eqb_spec a INT32_MIN), (Z.eqb_spec b (-1));
      cbn [andb]; try tauto; reflexivity. }
  pose proof (Z.quot_rem' a b) as Hqr.
  pose proof (Z.rem_bound_abs a b Hb0) as Hrb.
  pose proof (Z.mul_quot_le (Z.abs a) (Z.abs b) (Z.abs_nonneg a)
                ltac:(lia)) as Hbq.
  rewrite Z.quot_abs, <- Z.abs_mul in Hbq by assumption.
  assert (Z.abs (a ÷ b) <= Z.abs a) as Hq.
  { rewrite Z.abs_mul in Hbq. nia. }
  assert (mathlib_multiply b (a ÷ b) = a - Z.rem a b) as Hmul.
  { unfold mathlib_multiply, mul32. rewrite wrap32_id; [lia | ranges]. }
  split; [exact Hdiv|]. split; [exact Hq|]. split; [exact Hmul|]. split.
  - rewrite Hmul. unfold mathlib_add, add32.
    replace (a - Z.rem a b + Z.rem a b) with a by lia.
    apply wrap32_id. assumption.
  - intros H0. rewrite Hmul, H0. lia.
Qed.

Lemma mathlib_divide_multiply_back_witness :
  exists q,
    mathlib_divide (-17) 5 (Some 0) = Returns MATHLIB_OK (Some q)
    /\ Z.abs q <= Z.abs (-17)
    /\ mathlib_multiply 5 q = -17 - Z.rem (-17) 5
    /\ mathlib_add (mathlib_multiply 5 q) (Z.rem (-17) 5) = -17
    /\ (Z.rem (-17) 5 = 0 -> mathlib_multiply 5 q = -17).
Proof.
  apply (mathlib_divide_multiply_back (-17) 5 0); ranges.
Defined.

(** ** The square root as a function *)

Lemma mathlib_sqrt_value (n old : Z) :
  0 <= n < INT32_MAX ->
  mathlib_sqrt n (Some old) = Returns MATHLIB_OK (Some (Z.sqrt n)).
Proof.
  intros Hn. destruct (mathlib_sqrt_floor n old Hn) as (r & -> & Hr).
  do 2 f_equal. symmetry. apply Z.sqrt_unique.
  unfold Z.succ. exact Hr.
Qed.

(** Below [INT32_MAX] the value written is [Z.sqrt n]; so the function
    is monotone there and returns [k] for the square of every [k] up to
    [46340]. *)
Theorem mathlib_sqrt_is_Zsqrt :
  (forall n old : Z,
      0 <= n < INT32_MAX ->
      mathlib_sqrt n (Some old) = Returns MATHLIB_OK (Some (Z.sqrt n)))
  /\ (forall k old : Z,
      0 <= k <= 46340 ->
      mathlib_sqrt (k * k) (Some old) = Returns MATHLIB_OK (Some k))
  /\ (forall n m old rn rm : Z,
      0 <= n <= m -> m < INT32_MAX ->
      mathlib_sqrt n (Some old) = Returns MATHLIB_OK (Some rn) ->
      mathlib_sqrt m (Some old) = Returns MATHLIB_OK (Some rm) ->
      rn <= rm).
Proof.
  split; [exact mathlib_sqrt_value|]. split.
  - intros k old Hk.
    rewrite mathlib_sqrt_value by (unfold INT32_MAX; nia).
    rewrite Z.sqrt_square by lia. reflexivity.
  - intros n m old rn rm Hnm Hm.
    rewrite !mathlib_sqrt_value by lia.
    intros [= <-] [= <-]. apply Z.sqrt_le_mono. lia.
Qed.

Lemma mathlib_sqrt_is_Zsqrt_witness :
  mathlib_sqrt 2147483646 (Some 7)
    = Returns MATHLIB_OK (Some (Z.sqrt 2147483646)).
Proof.
  apply (proj1 mathlib_sqrt_is_Zsqrt 2147483646 7). ranges.
Defined.

(** For every 32-bit argument and every output pointer the function
    returns: the loop never divides by zero, not even on the negative
    values the overflow at [INT32_MAX] leads it through. *)
Theorem mathlib_sqrt_defined (n : Z) (result : option Z) :
  in_int32 n -> mathlib_sqrt n result <> Undefined.
Proof.
  intros Hn. destruct result as [old|]; [|discriminate].
  destruct (Z.lt_ge_cases n 0) as [Hneg|Hpos].
  - rewrite mathlib_sqrt_negative by assumption. discriminate.
  - destruct (Z.eq_dec n INT32_MAX) as [->|Hmax].
    + vm_compute. discriminate.
    + rewrite mathlib_sqrt_value by ranges. discriminate.
Qed.

Lemma mathlib_sqrt_defined_witness :
  mathlib_sqrt 2147483647 (Some 0) <> Undefined.
Proof.
  apply (mathlib_sqrt_defined 2147483647 (Some 0)). ranges.
Defined.

(** ** Sums and maxima of whole arrays *)

Lemma mathlib_sum_array_whole (a : list Z) (old : Z) :
  Forall in_int32 a -> Z.of_nat (List.length a) < 2 ^ 32 ->
  mathlib_sum_array (Some a) (List.length a) (Some old)
    = Returns MATHLIB_OK (Some (exact_sum a)).
Proof.
  intros Ha Hbig. unfold mathlib_sum_array.
  rewrite (sum_loop_exact a (List.length a) 0 0 Ha);
    [| lia | lia | ranges].
  cbn [skipn]. rewrite firstn_all. reflexivity.
Qed.

Lemma exact_sum_app (a b : list Z) :
  exact_sum (a ++ b) = exact_sum a + exact_sum b.
Proof.
  unfold exact_sum. induction a as [|v a IH]; cbn [app fold_right]; lia.
Qed.

Lemma exact_sum_perm (a b : list Z) :
  Permutation a b -> exact_sum a = exact_sum b.
Proof.
  unfold exact_sum. induction 1; cbn [fold_right]; lia.
Qed.

(** The sum does not depend on the order of the elements, and the sum
    of a concatenation is the sum of the two sums. *)
Theorem mathlib_sum_array_order_free :
  (forall (a b : list Z) (old : Z),
      Forall in_int32 a -> Z.of_nat (List.length a) < 2 ^ 32 ->
      Permutation a b ->
      mathlib_sum_array (Some b) (List.length b) (Some old)
        = mathlib_sum_array (Some a) (List.length a) (Some old))
  /\ (forall (a b : list Z) (old sa sb : Z),
      Forall in_int32 (a ++ b) ->
      Z.of_nat (List.length (a ++ b)) < 2 ^ 32 ->
      mathlib_sum_array (Some a) (List.length a) (Some old)
        = Returns MATHLIB_OK (Some sa) ->
      mathlib_sum_array (Some b) (List.length b) (Some old)
        = Returns MATHLIB_OK (Some sb) ->
      mathlib_sum_array (Some (a ++ b)) (List.length (a ++ b)) (Some old)
        = Returns MATHLIB_OK (Some (sa + sb))).
Proof.
  split.
  - intros a b old Ha Hbig Hperm.
    rewrite (mathlib_sum_array_whole a old Ha Hbig).
    rewrite mathlib_sum_array_whole.
    + rewrite (exact_sum_perm a b Hperm). reflexivity.
    + exact (Permutation_Forall Hperm Ha).
    + rewrite <- (Permutation_length Hperm). exact Hbig.
  - intros a b old sa sb Hab Hbig.
    apply Forall_app in Hab as Hboth. destruct Hboth as [Ha Hb].
    rewrite length_app in Hbig.
    rewrite (mathlib_sum_array_whole a old Ha) by lia.
    rewrite (mathlib_sum_array_whole b old Hb) by lia.
    intros [= <-] [= <-].
    rewrite mathlib_sum_array_whole, exact_sum_app;
      [reflexivity | exact Hab | rewrite length_app; lia].
Qed.

Lemma mathlib_sum_array_order_free_witness :
  mathlib_sum_array (Some [3; -1; 2]) 3 (Some 0)
    = mathlib_sum_array (Some [2; 3; -1]) 3 (Some 0).
Proof.
  apply (proj1 mathlib_sum_array_order_free [2; 3; -1] [3; -1; 2] 0).
  - repeat constructor; unfold INT32_MIN, INT32_MAX; lia.
  - cbn. lia.
  - apply (Permutation_cons_app [3; -1] [] 2). apply Permutation_refl.
Defined.

Lemma mathlib_find_max_whole (a : list Z) (old : Z) :
  a <> [] ->
  exists m,
    mathlib_find_max (Some a) (List.length a) (Some old)
      = Returns MATHLIB_OK (Some m)
    /\ In m a /\ (forall v, In v a -> v <= m).
Proof.
  destruct a as [|v0 t]; [contradiction|]. intros _.
  pose proof (scan_from_best t [v0] (O, v0)) as Hbest.
  destruct (scan_from t 1 (O, v0)) as [i m] eqn:Hscan.
  cbn [List.length] in Hbest. rewrite Hscan in Hbest.
  destruct Hbest as (Hi & Hmax & _).
  { repeat split; cbn [fst snd].
    - intros [|[|j]] v H; cbn in H; try discriminate.
      injection H as ->. lia.
    - intros j v H. lia. }
  cbn [fst snd app] in *. exists m. split; [|split].
  - unfold mathlib_find_max. cbn [List.length Nat.eqb nth_error bind].
    rewrite (max_loop_scan (v0 :: t) (S (List.length t) - 1) 1 O v0)
      by (cbn; lia).
    replace (S (List.length t) - 1)%nat with (List.length t) by lia.
    cbn [skipn]. rewrite firstn_all, Hscan. reflexivity.
  - eapply nth_error_In. exact Hi.
  - intros v Hv. apply In_nth_error in Hv as [j Hj]. exact (Hmax j v Hj).
Qed.

(** The maximum does not depend on the order of the elements, and the
    maximum of a concatenation is the larger of the two maxima. *)
Theorem mathlib_find_max_order_free :
  (forall (a b : list Z) (old : Z),
      a <> [] -> Permutation a b ->
      mathlib_find_max (Some b) (List.length b) (Some old)
        = mathlib_find_max (Some a) (List.length a) (Some old))
  /\ (forall (a b : list Z) (old ma mb : Z),
      mathlib_find_max (Some a) (List.length a) (Some old)
        = Returns MATHLIB_OK (Some ma) ->
      mathlib_find_max (Some b) (List.length b) (Some old)
        = Returns MATHLIB_OK (Some mb) ->
      mathlib_find_max (Some (a ++ b)) (List.length (a ++ b)) (Some old)
        = Returns MATHLIB_OK (Some (Z.max ma mb))).
Proof.
  split.
  - intros a b old Ha Hperm.
    assert (b <> []) as Hb
      by (intros ->; apply Permutation_sym, Permutation_nil in Hperm;
          contradiction).
    destruct (mathlib_find_max_whole a old Ha) as (ma & -> & Hina & Hmaxa).
    destruct (mathlib_find_max_whole b old Hb) as (mb & -> & Hinb & Hmaxb).
    assert (mb <= ma)
      by (apply Hmaxa, (Permutation_in _ (Permutation_sym Hperm)), Hinb).
    assert (ma <= mb) by (apply Hmaxb, (Permutation_in _ Hperm), Hina).
    do 2 f_equal. lia.
  - intros a b old ma mb Hfa Hfb.
    assert (a <> []) as Ha by (intros ->; discriminate Hfa).
    assert (b <> []) as Hb by (intros ->; discriminate Hfb).
    destruct (mathlib_find_max_whole a old Ha) as (ma' & Ea & Hina & Hmaxa).
    destruct (mathlib_find_max_whole b old Hb) as (mb' & Eb & Hinb & Hmaxb).
    rewrite Ea in Hfa. rewrite Eb in Hfb.
    injection Hfa as ->. injection Hfb as ->.
    destruct (mathlib_find_max_whole (a ++ b) old) as (m & -> & Hin & Hmax).
    { destruct a; [contradiction | discriminate]. }
    do 2 f_equal.
    assert (ma <= m) by (apply Hmax, in_or_app; auto).
    assert (mb <= m) by (apply Hmax, in_or_app; auto).
    apply in_app_or in Hin as [Hin|Hin];
      [apply Hmaxa in Hin | apply Hmaxb in Hin]; lia.
Qed.

Lemma mathlib_find_max_order_free_witness :
  mathlib_find_max (Some [3; -1; 2]) 3 (Some 0)
    = mathlib_find_max (Some [2; 3; -1]) 3 (Some 0).
Proof.
  apply (proj1 mathlib_find_max_order_free [2; 3; -1] [3; -1; 2] 0).
  - discriminate.
  - apply (Permutation_cons_app [3; -1] [] 2). apply Permutation_refl.
Defined.

Lemma exact_sum_le_max (a : list Z) (m : Z) :
  (forall v, In v a -> v <= m) ->
  exact_sum a <= Z.of_nat (List.length a) * m.
Proof.
  unfold exact_sum. induction a as [|v a IH]; intros Hm.
  - cbn. lia.
  - cbn [fold_right List.length]. rewrite Nat2Z.inj_succ.
    assert (v <= m) by (apply Hm; left; reflexivity).
    assert (fold_right Z.add 0 a <= Z.of_nat (List.length a) * m)
      by (apply IH; intros w Hw; apply Hm; right; exact Hw).
    lia.
Qed.

(** The two reductions agree with each other: the sum of a non-empty
    array is at most its length times the maximum [mathlib_find_max]
    writes. *)
Theorem mathlib_sum_array_le_len_max (a : list Z) (old : Z) :
  a <> [] -> Forall in_int32 a -> Z.of_nat (List.length a) < 2 ^ 32 ->
  exists s m,
    mathlib_sum_array (Some a) (List.length a) (Some old)
      = Returns MATHLIB_OK (Some s)
    /\ mathlib_find_max (Some a) (List.length a) (Some old)
       = Returns MATHLIB_OK (Some m)
    /\ s <= Z.of_nat (List.length a) * m.
Proof.
  intros Hne Ha Hbig.
  destruct (mathlib_find_max_whole a old Hne) as (m & Hm & _ & Hmax).
  exists (exact_sum a), m. split; [|split].
  - apply mathlib_sum_array_whole; assumption.
  - exact Hm.
  - apply exact_sum_le_max. exact Hmax.
Qed.

Lemma mathlib_sum_array_le_len_max_witness :
  exists s m,
    mathlib_sum_array (Some [4; 9; -3]) 3 (Some 0)
      = Returns MATHLIB_OK (Some s)
    /\ mathlib_find_max (Some [4; 9; -3]) 3 (Some 0)
       = Returns MATHLIB_OK (Some m)
    /\ s <= Z.of_nat 3 * m.
Proof.
  apply (mathlib_sum_array_le_len_max [4; 9; -3] 0).
  - discriminate.
  - repeat constructor; unfold INT32_MIN, INT32_MAX; lia.
  - cbn. lia.
Defined.

(** ** Callback iteration *)

Section Foreach.

Context {U W : Type}.
Variable callback : mathlib_callback_fn U W.
Variable user_data : U.

Lemma foreach_loop_fold (a : list Z) (todo i : nat) (w : W) :
  (i + todo <= List.length a)%nat ->
  foreach_loop a i todo callback user_data w
    = Some (fold_left (fun w v => callback user_data v w)
              (firstn todo (skipn i a)) w).
Proof.
  revert i w. induction todo as [|todo IH]; intros i w Hlen.
  - reflexivity.
  - cbn [foreach_loop].
    destruct (nth_error_in_bounds a i ltac:(lia)) as [v Hv].
    rewrite Hv, (skipn_nth_error_cons a i v Hv).
    cbn [bind firstn fold_left]. apply IH. lia.
Qed.

(** [mathlib_foreach] calls the callback once for each of the first
    [len] elements, in index order, handing it [user_data] and the
    element: the state it leaves is the left fold of the callback over
    those elements.  Hence iterating over a concatenation is iterating
    over the first part and then over the second. *)
Theorem mathlib_foreach_fold :
  (forall (a : list Z) (len : nat) (w : W),
      (len <= List.length a)%nat ->
      mathlib_foreach (Some a) len (Some callback) user_data w
        = Some (fold_left (fun w v => callback user_data v w)
                  (firstn len a) w))
  /\ (forall (a b : list Z) (w : W),
      mathlib_foreach (Some (a ++ b)) (List.length a + List.length b)
          (Some callback) user_data w
        = (w' <- mathlib_foreach (Some a) (List.length a) (Some callback)
                   user_data w ;;
           mathlib_foreach (Some b) (List.length b) (Some callback)
             user_data w')).
Proof.
  assert (forall (a : list Z) (len : nat) (w : W),
      (len <= List.length a)%nat ->
      mathlib_foreach (Some a) len (Some callback) user_data w
        = Some (fold_left (fun w v => callback user_data v w)
                  (firstn len a) w)) as Hfold.
  { intros a len w Hlen. unfold mathlib_foreach.
    rewrite foreach_loop_fold by lia. reflexivity. }
  split; [exact Hfold|].
  intros a b w.
  rewrite (Hfold (a ++ b)) by (rewrite length_app; lia).
  rewrite (Hfold a) by lia. cbn [bind]. rewrite (Hfold b) by lia.
  rewrite <- length_app, !firstn_all, fold_left_app. reflexivity.
Qed.

End Foreach.

Lemma mathlib_foreach_fold_witness :
  mathlib_foreach (Some [1; 2; 3]) 2
      (Some (fun (_ : unit) (v : Z) (log : list Z) => v :: log)) tt []
    = Some [2; 1].
Proof.
  apply (proj1 (mathlib_foreach_fold
                  (fun (_ : unit) (v : Z) (log : list Z) => v :: log) tt)
           [1; 2; 3] 2%nat []).
  cbn. lia.
Defined.

Lemma sum_loop_foreach (a : list Z) (todo i : nat) (sum : Z) :
  sum_loop a i todo sum
    = foreach_loop a i todo (fun (_ : unit) v acc => add64 acc v) tt sum.
Proof.
  revert i sum. induction todo as [|todo IH]; intros i sum;
    cbn [sum_loop foreach_loop]; [reflexivity|].
  destruct (nth_error a i) as [v|]; cbn [bind]; [apply IH | reflexivity].
Qed.

Lemma max_loop_foreach (a : list Z) (todo i : nat) (max : Z) :
  max_loop a i todo max
    = foreach_loop a i todo
        (fun (_ : unit) v max => if v >? max then v else max) tt max.
Proof.
  revert i max. induction todo as [|todo IH]; intros i max;
    cbn [max_loop foreach_loop]; [reflexivity|].
  destruct (nth_error a i) as [v|]; cbn [bind]; [apply IH | reflexivity].
Qed.

(** The two reductions are instances of the iteration: summing is
    [mathlib_foreach] with a callback that adds into a 64-bit
    accumulator started at [0], and the maximum of a non-empty prefix is
    [mathlib_foreach] with a callback that keeps the strictly greater
    value, started at the first element. *)
Theorem reductions_by_foreach (a : list Z) (len : nat) (old : Z) :
  mathlib_sum_array (Some a) len (Some old)
    = match mathlib_foreach (Some a) len
              (Some (fun (_ : unit) v acc => add64 acc v)) tt 0 with
      | Some sum => Returns MATHLIB_OK (Some sum)
      | None => Undefined
      end
  /\ (forall first : Z,
        (0 < len)%nat -> nth_error a 0 = Some first ->
        mathlib_find_max (Some a) len (Some old)
          = match mathlib_foreach (Some a) len
                    (Some (fun (_ : unit) v max =>
                             if v >? max then v else max)) tt first with
            | Some max => Returns MATHLIB_OK (Some max)
            | None => Undefined
            end).
Proof.
  split.
  - unfold mathlib_sum_array, mathlib_foreach.
    rewrite sum_loop_foreach. reflexivity.
  - intros first Hlen Hfirst. unfold mathlib_find_max, mathlib_foreach.
    destruct len as [|len]; [lia|].
    cbn [Nat.eqb foreach_loop]. rewrite Hfirst. cbn [bind].
    rewrite Z.gtb_ltb, Z.ltb_irrefl.
    replace (S len - 1)%nat with len by lia.
    rewrite max_loop_foreach. reflexivity.
Qed.

Lemma reductions_by_foreach_witness :
  mathlib_find_max (Some [4; 9; -3]) 3 (Some 0)
    = match mathlib_foreach (Some [4; 9; -3]) 3
              (Some (fun (_ : unit) v max =>
                       if v >? max then v else max)) tt 4 with
      | Some max => Returns MATHLIB_OK (Some max)
      | None => Undefined
      end.
Proof.
  apply (proj2 (reductions_by_foreach [4; 9; -3] 3 0) 4);
    [cbn; lia | reflexivity].
Defined.

(** ** What the loops read *)

Lemma prefix_same_reads (a b : list Z) (len i : nat) :
  firstn len a = firstn len b -> (i < len)%nat ->
  nth_error a i = nth_error b i.
Proof.
  intros Hpre Hi.
  pose proof (nth_error_firstn len a i) as Ha.
  pose proof (nth_error_firstn len b i) as Hb.
  destruct (Nat.ltb_spec i len); [|lia].
  rewrite <- Ha, <- Hb, Hpre. reflexivity.
Qed.

Lemma foreach_loop_prefix {U W : Type} (cb : mathlib_callback_fn U W)
    (u : U) (a b : list Z) (len todo i : nat) (w : W) :
  firstn len a = firstn len b -> (i + todo <= len)%nat ->
  foreach_loop a i todo cb u w = foreach_loop b i todo cb u w.
Proof.
  intros Hpre. revert i w. induction todo as [|todo IH]; intros i w Hlen;
    cbn [foreach_loop]; [reflexivity|].
  rewrite (prefix_same_reads a b len i Hpre) by lia.
  destruct (nth_error b i) as [v|]; cbn [bind]; [apply IH; lia|reflexivity].
Qed.

(** No operation looks at an element at or beyond index [len]: two
    arrays that agree on their first [len] elements give the same
    outcome, whatever they hold afterwards and however long they are. *)
Theorem arrays_read_up_to_len {U W : Type} (a b : list Z) (len : nat) :
  firstn len a = firstn len b ->
  (forall result,
      mathlib_sum_array (Some a) len result
        = mathlib_sum_array (Some b) len result)
  /\ (forall result,
      mathlib_find_max (Some a) len result
        = mathlib_find_max (Some b) len result)
  /\ (forall (cb : option (mathlib_callback_fn U W)) (u : U) (w : W),
      mathlib_foreach (Some a) len cb u w
        = mathlib_foreach (Some b) len cb u w).
Proof.
  intros Hpre. split; [|split].
  - intros [old|]; [|reflexivity]. unfold mathlib_sum_array.
    rewrite !sum_loop_foreach.
    rewrite (foreach_loop_prefix _ tt a b len len 0 0 Hpre) by lia.
    reflexivity.
  - intros [old|]; [|reflexivity]. unfold mathlib_find_max.
    destruct len as [|len]; [reflexivity|]. cbn [Nat.eqb].
    rewrite (prefix_same_reads a b (S len) 0 Hpre) by lia.
    destruct (nth_error b 0) as [first|]; cbn [bind]; [|reflexivity].
    rewrite !max_loop_foreach.
    rewrite (foreach_loop_prefix _ tt a b (S len) (S len - 1) 1 first Hpre)
      by lia.
    reflexivity.
  - intros [cb|] u w; [|reflexivity]. unfold mathlib_foreach.
    apply (foreach_loop_prefix cb u a b len len 0 w Hpre). lia.
Qed.

Lemma arrays_read_up_to_len_witness :
  mathlib_sum_array (Some [1; 2; 3; 4]) 2 (Some 0)
    = mathlib_sum_array (Some [1; 2; -7]) 2 (Some 0).
Proof.
  apply (proj1 (@arrays_read_up_to_len unit unit [1; 2; 3; 4] [1; 2; -7] 2
                  eq_refl) (Some 0)).
Defined.

(** ** Strings *)

Lemma strlen_app (t s : string) :
  no_nul t -> strlen (t ++ s)%string = (String.length t + strlen s)%nat.
Proof.
  unfold no_nul. induction t as [|c t IH]; cbn [all_chars append];
    [reflexivity|].
  intros H. apply andb_prop in H as [Hc Ht]. apply negb_true_iff in Hc.
  cbn [strlen String.length Nat.add]. rewrite Hc, (IH Ht). reflexivity.
Qed.

Lemma strlen_le_length (s : string) : (strlen s <= String.length s)%nat.
Proof.
  induction s as [|c s IH]; cbn [strlen String.length]; [lia|].
  destruct (is_nul c); lia.
Qed.

(** [mathlib_strlen] never counts past the stored characters, counts a
    NUL-free prefix in full, and stops at the first NUL whatever comes
    after it. *)
Theorem mathlib_strlen_stops_at_nul :
  (forall s : string,
      (mathlib_strlen (Some s) <= String.length s)%nat)
  /\ (forall t s : string,
      no_nul t ->
      mathlib_strlen (Some (t ++ s)%string)
        = (String.length t + mathlib_strlen (Some s))%nat)
  /\ (forall t junk : string,
      no_nul t ->
      mathlib_strlen (Some (t ++ String zero junk)%string) = String.length t).
Proof.
  split; [exact strlen_le_length|]. split.
  - intros t s Ht. cbn [mathlib_strlen]. apply strlen_app. exact Ht.
  - intros t junk Ht. cbn [mathlib_strlen]. rewrite strlen_app by exact Ht.
    cbn. lia.
Qed.

Lemma mathlib_strlen_stops_at_nul_witness :
  mathlib_strlen (Some ("42" ++ String zero "junk")%string) = 2%nat.
Proof.
  apply (proj2 (proj2 mathlib_strlen_stops_at_nul) "42"%string "junk"%string).
  reflexivity.
Defined.

Lemma append_nil_r (s : string) : (s ++ "")%string = s.
Proof.
  induction s as [|c s IH]; cbn [append]; [reflexivity|].
  rewrite IH. reflexivity.
Qed.

Section ParseIntEdges.

Variable long_bits : Z.
Hypothesis long_wide : 32 <= long_bits.

(** The call sees only the text of the string: two strings with the
    same characters before their first NUL give the same outcome, so
    nothing stored after a NUL matters. *)
Theorem mathlib_parse_int_text_only (s s' : string) (result : option Z) :
  c_text s = c_text s' ->
  mathlib_parse_int long_bits (Some s) result
    = mathlib_parse_int long_bits (Some s') result.
Proof.
  intros Htext. destruct result as [old|]; [|reflexivity].
  destruct (mathlib_parse_int_cases long_bits long_wide s old)
    as [Hs | (v & Hs & Hv & Hrange)].
  - destruct (mathlib_parse_int_cases long_bits long_wide s' old)
      as [Hs' | (v' & _ & Hv' & Hrange')]; [congruence|].
    rewrite <- Htext in Hv'.
    rewrite (mathlib_parse_int_accepts long_bits long_wide s old v'
               Hv' Hrange') in Hs.
    discriminate Hs.
  - rewrite Htext in Hv.
    rewrite Hs, (mathlib_parse_int_accepts long_bits long_wide s' old v
                   Hv Hrange).
    reflexivity.
Qed.

(** White space is accepted only in front: after the digits, or between
    the sign and the digits, it makes the call fail. *)
Theorem mathlib_parse_int_space_placement (ws ds : string) (old : Z) :
  ws <> EmptyString -> all_chars isspace ws = true ->
  ds <> EmptyString -> all_chars isdigit ds = true ->
  mathlib_parse_int long_bits (Some (ds ++ ws)%string) (Some old)
    = Returns MATHLIB_ERR_RANGE (Some old)
  /\ mathlib_parse_int long_bits (Some ("-" ++ ws ++ ds)%string) (Some old)
      = Returns MATHLIB_ERR_RANGE (Some old)
  /\ mathlib_parse_int long_bits (Some ("+" ++ ws ++ ds)%string) (Some old)
      = Returns MATHLIB_ERR_RANGE (Some old).
Proof.
  intros Hwne Hws Hdne Hds.
  destruct ws as [|c ws]; [contradiction|].
  cbn [all_chars] in Hws. apply andb_prop in Hws as [Hc Hws].
  destruct (space_not_other c Hc) as (Hcd & Hcn & _).
  split; [|split].
  - pose proof (mathlib_parse_int_decomposed long_bits long_wide
                  "" "" ds (String c ws) false old) as H.
    cbn [append ends_here] in H. rewrite Hcn in H. apply H; auto.
  - rewrite (mathlib_parse_int_shape long_bits long_wide
               ("-" ++ String c ws ++ ds) ("-" ++ String c ws ++ ds)
               "" (String c ws ++ ds) 0 1 true old);
      try reflexivity.
    cbn [append starts_with]. exact Hcd.
  - rewrite (mathlib_parse_int_shape long_bits long_wide
               ("+" ++ String c ws ++ ds) ("+" ++ String c ws ++ ds)
               "" (String c ws ++ ds) 0 1 false old);
      try reflexivity.
    cbn [append starts_with]. exact Hcd.
Qed.

(** The accepted range is asymmetric, as [int32_t] is: a digit string
    is accepted up to [2147483647], and behind a minus sign up to
    [2147483648]; any larger magnitude, however many digits it has,
    gives [MATHLIB_ERR_RANGE]. *)
Theorem mathlib_parse_int_range (ws ds : string) (old : Z) :
  all_chars isspace ws = true ->
  ds <> EmptyString -> all_chars isdigit ds = true ->
  mathlib_parse_int long_bits (Some (ws ++ ds)%string) (Some old)
    = (if decimal_value ds <=? 2147483647
       then Returns MATHLIB_OK (Some (decimal_value ds))
       else Returns MATHLIB_ERR_RANGE (Some old))
  /\ mathlib_parse_int long_bits (Some (ws ++ "-" ++ ds)%string) (Some old)
      = (if decimal_value ds <=? 2147483648
         then Returns MATHLIB_OK (Some (- decimal_value ds))
         else Returns MATHLIB_ERR_RANGE (Some old)).
Proof.
  intros Hws Hne Hds.
  pose proof (decimal_value_nonneg long_bits long_wide ds) as Hpos.
  pose proof (mathlib_parse_int_decomposed long_bits long_wide
                ws "" ds "" false old Hws) as Hplain.
  pose proof (mathlib_parse_int_decomposed long_bits long_wide
                ws "-" ds "" true old Hws) as Hminus.
  rewrite append_nil_r in Hplain, Hminus. cbn [append] in Hplain.
  split.
  - rewrite Hplain; auto. cbn [ends_here andb]. unfold fits_int32.
    destruct (Z.leb_spec INT32_MIN (decimal_value ds));
      [|unfold INT32_MIN in *; lia].
    unfold INT32_MAX. reflexivity.
  - rewrite Hminus; auto. cbn [ends_here andb]. unfold fits_int32.
    destruct (Z.leb_spec (- decimal_value ds) INT32_MAX);
      [|unfold INT32_MAX in *; lia].
    rewrite andb_true_r. unfold INT32_MIN.
    destruct (Z.leb_spec (-2147483648) (- decimal_value ds)),
      (Z.leb_spec (decimal_value ds) 2147483648); try lia; reflexivity.
Qed.

End ParseIntEdges.

Lemma mathlib_parse_int_text_only_witness :
  mathlib_parse_int 64 (Some ("42" ++ String zero "x")%string) (Some 0)
    = mathlib_parse_int 64 (Some "42"%string) (Some 0).
Proof.
  apply (mathlib_parse_int_text_only 64 ltac:(lia)). reflexivity.
Defined.

Lemma mathlib_parse_int_space_placement_witness :
  mathlib_parse_int 64 (Some ("42" ++ " ")%string) (Some 0)
    = Returns MATHLIB_ERR_RANGE (Some 0)
  /\ mathlib_parse_int 64 (Some ("-" ++ " " ++ "42")%string) (Some 0)
      = Returns MATHLIB_ERR_RANGE (Some 0)
  /\ mathlib_parse_int 64 (Some ("+" ++ " " ++ "42")%string) (Some 0)
      = Returns MATHLIB_ERR_RANGE (Some 0).
Proof.
  apply (mathlib_parse_int_space_placement 64 ltac:(lia)
           " "%string "42"%string 0);
    try discriminate; reflexivity.
Defined.

Lemma mathlib_parse_int_range_witness :
  mathlib_parse_int 64 (Some ("" ++ "2147483648")%string) (Some 0)
    = (if decimal_value "2147483648" <=? 2147483647
       then Returns MATHLIB_OK (Some (decimal_value "2147483648"))
       else Returns MATHLIB_ERR_RANGE (Some 0))
  /\ mathlib_parse_int 64 (Some ("" ++ "-" ++ "2147483648")%string)
        (Some 0)
      = (if decimal_value "2147483648" <=? 2147483648
         then Returns MATHLIB_OK (Some (- decimal_value "2147483648"))
         else Returns MATHLIB_ERR_RANGE (Some 0)).
Proof.
  apply (mathlib_parse_int_range 64 ltac:(lia) ""%string
           "2147483648"%string 0);
    try discriminate; reflexivity.
Defined.

(** ** Formatting *)

Lemma uint_text_small (n : Z) (acc : string) :
  n < 10 -> uint_text n acc = String (digit_char n) acc.
Proof.
  intros H. rewrite uint_text_equation_1.
  destruct (Z_lt_dec n 10); [reflexivity | contradiction].
Qed.

Lemma uint_text_big (n : Z) (acc : string) :
  10 <= n ->
  uint_text n acc = uint_text (n / 10) (String (digit_char (n mod 10)) acc).
Proof.
  intros H. rewrite uint_text_equation_1.
  destruct (Z_lt_dec n 10); [lia | reflexivity].
Qed.

Lemma digit_of_digit_char (d : Z) :
  0 <= d <= 9 -> digit_of (digit_char d) = Some d.
Proof.
  intros H.
  assert (d = 0 \/ d = 1 \/ d = 2 \/ d = 3 \/ d = 4 \/ d = 5 \/ d = 6
          \/ d = 7 \/ d = 8 \/ d = 9) as Hd by lia.
  repeat (destruct Hd as [-> | Hd]; [reflexivity|]). subst d. reflexivity.
Qed.

Lemma isdigit_digit_char (d : Z) :
  0 <= d <= 9 -> isdigit (digit_char d) = true.
Proof.
  intros H. unfold isdigit. rewrite digit_of_digit_char by exact H.
  reflexivity.
Qed.

(** The digits printed denote the number. *)
Lemma uint_text_value (k : nat) (n : Z) (acc : string) :
  0 <= n < 10 ^ Z.of_nat (S k) ->
  decimal_value (uint_text n acc)
    = n * 10 ^ Z.of_nat (String.length acc) + decimal_value acc
  /\ (all_chars isdigit acc = true ->
      all_chars isdigit (uint_text n acc) = true)
  /\ (S (String.length acc) <= String.length (uint_text n acc)
      <= S k + String.length acc)%nat.
Proof.
  revert n acc. induction k as [|k IH]; intros n acc Hn.
  - change (10 ^ Z.of_nat 1) with 10 in Hn.
    rewrite uint_text_small by lia.
    cbn [decimal_value all_chars String.length].
    rewrite digit_of_digit_char, isdigit_digit_char by lia.
    split; [reflexivity|]. split; [intros ->; reflexivity | lia].
  - destruct (Z.lt_ge_cases n 10) as [Hsmall|Hbig].
    + rewrite uint_text_small by lia.
      cbn [decimal_value all_chars String.length].
      rewrite digit_of_digit_char, isdigit_digit_char by lia.
      split; [reflexivity|]. split; [intros ->; reflexivity | lia].
    + rewrite uint_text_big by lia.
      rewrite Nat2Z.inj_succ, Z.pow_succ_r in Hn by lia.
      pose proof (Z.div_mod n 10 ltac:(lia)) as Hdm.
      pose proof (Z.mod_pos_bound n 10 ltac:(lia)) as Hm.
      assert (0 <= n / 10 < 10 ^ Z.of_nat (S k)) as Hq.
      { split; [apply Z.div_pos; lia|].
        apply Z.div_lt_upper_bound; lia. }
      destruct (IH (n / 10) (String (digit_char (n mod 10)) acc) Hq)
        as (Hv & Hd & Hl).
      cbn [decimal_value all_chars String.length] in Hv, Hd, Hl.
      rewrite digit_of_digit_char in Hv by lia.
      rewrite isdigit_digit_char in Hd by lia.
      split; [|split].
      * rewrite Hv, Nat2Z.inj_succ, Z.pow_succ_r by lia.
        set (p := 10 ^ Z.of_nat (String.length acc)).
        rewrite Hdm at 3. ring.
      * intros Hacc. apply Hd. rewrite Hacc. reflexivity.
      * lia.
Qed.

Lemma uint_text_int32 (n : Z) :
  0 <= n <= 2147483648 ->
  decimal_value (uint_text n "") = n
  /\ all_chars isdigit (uint_text n "") = true
  /\ (1 <= String.length (uint_text n "") <= 10)%nat.
Proof.
  intros Hn.
  destruct (uint_text_value 9 n "") as (Hv & Hd & Hl).
  { change (10 ^ Z.of_nat 10) with 10000000000. lia. }
  cbn [decimal_value String.length Z.of_nat] in Hv, Hl.
  split; [lia|]. split; [apply Hd; reflexivity | exact Hl].
Qed.

Lemma digits_no_nul (ds : string) :
  all_chars isdigit ds = true -> no_nul ds.
Proof.
  apply all_chars_impl. intros c Hc.
  apply digit_not_other in Hc as (_ & -> & _). reflexivity.
Qed.

(** What [%d] prints for a 32-bit value: a decimal text denoting the
    value, of at most eleven characters, none of them a NUL. *)
Lemma sint_text_int32 (v : Z) :
  in_int32 v ->
  decimal_text (sint_text v) v
  /\ (1 <= String.length (sint_text v) <= 11)%nat
  /\ no_nul (sint_text v).
Proof.
  intros Hv. unfold sint_text. destruct (Z.ltb_spec v 0) as [Hneg|Hpos].
  - destruct (uint_text_int32 (- v)) as (Hval & Hdig & Hlen); [ranges|].
    split; [|split].
    + exists ""%string, "-"%string, (uint_text (- v) "").
      split; [reflexivity|]. split; [reflexivity|]. split.
      * intros E. rewrite E in Hlen. cbn in Hlen. lia.
      * split; [exact Hdig|]. right. right. split; [reflexivity | lia].
    + cbn [String.length]. lia.
    + unfold no_nul. cbn [all_chars]. rewrite (digits_no_nul _ Hdig).
      reflexivity.
  - destruct (uint_text_int32 v) as (Hval & Hdig & Hlen); [ranges|].
    split; [|split].
    + exists ""%string, ""%string, (uint_text v "").
      split; [reflexivity|]. split; [reflexivity|]. split.
      * intros E. rewrite E in Hlen. cbn in Hlen. lia.
      * split; [exact Hdig|]. left. split; [reflexivity | lia].
    + lia.
    + exact (digits_no_nul _ Hdig).
Qed.

Lemma substring_whole (s : string) (n : nat) :
  (String.length s <= n)%nat -> substring 0 n s = s.
Proof.
  revert n. induction s as [|c s IH]; intros [|n] H; cbn in *;
    try reflexivity; try lia.
  rewrite IH by lia. reflexivity.
Qed.

Lemma no_nul_app (a b : string) :
  no_nul a -> no_nul b -> no_nul (a ++ b).
Proof.
  unfold no_nul. intros Ha Hb. rewrite all_chars_app, Ha, Hb. reflexivity.
Qed.

(** [mathlib_format_point] returns null exactly when the point pointer
    is null or the allocation fails.  Otherwise, for 32-bit coordinates,
    the buffer holds the whole of ["Point(x, y)"]: the text has at most
    31 characters, so the 64-byte buffer never truncates it, and its C
    length is the length of the text. *)
Theorem mathlib_format_point_text :
  (forall (p : option Point) (allocated : bool),
      mathlib_format_point p allocated = None
      <-> p = None \/ allocated = false)
  /\ (forall p : Point,
      in_int32 (x p) -> in_int32 (y p) ->
      mathlib_format_point (Some p) true = Some (point_text (x p) (y p))
      /\ (String.length (point_text (x p) (y p)) <= 31)%nat
      /\ mathlib_strlen (Some (point_text (x p) (y p)))
         = String.length (point_text (x p) (y p))).
Proof.
  split.
  - intros [p|] [|]; cbn; split; intros H; try tauto; try discriminate H.
    destruct H; discriminate.
  - intros p Hx Hy.
    destruct (sint_text_int32 (x p) Hx) as (_ & Hlx & Hnx).
    destruct (sint_text_int32 (y p) Hy) as (_ & Hly & Hny).
    assert (String.length (point_text (x p) (y p)) <= 31)%nat as Hlen.
    { unfold point_text. rewrite !length_append. cbn [String.length]. lia. }
    split; [|split].
    + cbn [mathlib_format_point]. unfold snprintf_point.
      fold (point_text (x p) (y p)).
      rewrite substring_whole by lia. reflexivity.
    + exact Hlen.
    + cbn [mathlib_strlen]. rewrite strlen_c_text, c_text_no_nul;
        [reflexivity|].
      unfold point_text.
      repeat (apply no_nul_app; [first [assumption | reflexivity]|]).
      reflexivity.
Qed.

Lemma mathlib_format_point_text_witness :
  mathlib_format_point (Some {| x := 3; y := -2 |}) true
    = Some (point_text 3 (-2))
  /\ (String.length (point_text 3 (-2)) <= 31)%nat
  /\ mathlib_strlen (Some (point_text 3 (-2)))
     = String.length (point_text 3 (-2)).
Proof.
  apply (proj2 mathlib_format_point_text {| x := 3; y := -2 |});
    cbn [x y]; ranges.
Defined.

(** What [mathlib_format_point] prints for a coordinate,
    [mathlib_parse_int] reads back: the decimal text of every 32-bit
    value is accepted and yields that value. *)
Theorem format_then_parse (long_bits v old : Z) :
  32 <= long_bits -> in_int32 v ->
  mathlib_parse_int long_bits (Some (sint_text v)) (Some old)
    = Returns MATHLIB_OK (Some v).
Proof.
  intros Hbits Hv.
  destruct (sint_text_int32 v Hv) as (Hdec & _ & Hnn).
  apply (mathlib_parse_int_accepts long_bits Hbits); [|exact Hv].
  rewrite (c_text_no_nul _ Hnn). exact Hdec.
Qed.

Lemma format_then_parse_witness :
  mathlib_parse_int 64 (Some (sint_text (-2147483648))) (Some 0)
    = Returns MATHLIB_OK (Some (-2147483648)).
Proof.
  apply (format_then_parse 64 (-2147483648) 0); ranges.
Defined.

(** ** Geometry *)

(** The squared distance does not depend on the order of the two
    arguments, null or not, is [0] from a point to itself, and, when the
    exact squared distance fits in 32 bits, is [0] only then. *)
Theorem mathlib_point_distance_squared_symmetric :
  (forall a b : option Point,
      mathlib_point_distance_squared a b
        = mathlib_point_distance_squared b a)
  /\ (forall a : Point,
      mathlib_point_distance_squared (Some a) (Some a) = 0)
  /\ (forall a b : Point,
      squared_distance a b <= INT32_MAX ->
      (mathlib_point_distance_squared (Some a) (Some b) = 0 <-> a = b)).
Proof.
  split; [|split].
  - intros [a|] [b|]; try reflexivity.
    rewrite !distance_squared_wrap. f_equal. unfold squared_distance. ring.
  - intros a. rewrite distance_squared_wrap.
    replace (squared_distance a a) with 0
      by (unfold squared_distance; ring).
    reflexivity.
  - intros a b Hfit. rewrite distance_squared_wrap.
    pose proof (Z.square_nonneg (x b - x a)) as Hx.
    pose proof (Z.square_nonneg (y b - y a)) as Hy.
    rewrite wrap32_id by (unfold squared_distance in *; ranges).
    unfold squared_distance. split.
    + intros H0.
      assert (x b - x a = 0) by nia. assert (y b - y a = 0) by nia.
      destruct a as [ax ay], b as [bx by']. cbn [x y] in *.
      f_equal; lia.
    + intros ->. ring.
Qed.

Lemma mathlib_point_distance_squared_symmetric_witness :
  mathlib_point_distance_squared
    (Some {| x := 1; y := 2 |}) (Some {| x := 1; y := 2 |}) = 0
  <-> {| x := 1; y := 2 |} = {| x := 1; y := 2 |}.
Proof.
  apply (proj2 (proj2 mathlib_point_distance_squared_symmetric)
           {| x := 1; y := 2 |} {| x := 1; y := 2 |}).
  vm_compute. discriminate.
Defined.

(** The area is the same for every way of naming the rectangle by two
    opposite corners: exchanging only the [x] coordinates of the two
    corners, or only the [y] coordinates, changes nothing. *)
Theorem mathlib_rectangle_area_any_diagonal (r : Rectangle) :
  mathlib_rectangle_area (Some (flip_x r)) = mathlib_rectangle_area (Some r)
  /\ mathlib_rectangle_area (Some (flip_y r))
     = mathlib_rectangle_area (Some r).
Proof.
  rewrite !mathlib_rectangle_area_unfold.
  unfold flip_x, flip_y, sub32. cbn [top_left bottom_right x y].
  split.
  - replace (x (top_left r) - x (bottom_right r))
      with (- (x (bottom_right r) - x (top_left r))) by lia.
    rewrite abs32_opp. reflexivity.
  - replace (y (top_left r) - y (bottom_right r))
      with (- (y (bottom_right r) - y (top_left r))) by lia.
    rewrite abs32_opp. reflexivity.
Qed.

Lemma rectangle_area_exact (r : Rectangle) :
  exact_area r <= INT32_MAX ->
  mathlib_rectangle_area (Some r) = exact_area r.
Proof.
  rewrite mathlib_rectangle_area_unfold.
  unfold exact_area, sub32, mul32.
  set (W := x (bottom_right r) - x (top_left r)).
  set (H := y (bottom_right r) - y (top_left r)).
  clearbody W H. intros Hfit.
  destruct (Z.eq_dec W 0) as [->|HW].
  { change (abs32 (wrap32 0)) with 0. reflexivity. }
  destruct (Z.eq_dec H 0) as [->|HH].
  { change (abs32 (wrap32 0)) with 0. rewrite !Z.mul_0_r. reflexivity. }
  unfold INT32_MAX in Hfit.
  rewrite !abs32_exact by (unfold INT32_MAX; nia).
  apply wrap32_id. ranges.
Qed.

(** For rectangles the value [-1] is not reserved for the null pointer.
    It cannot come from a rectangle whose exact area fits in 32 bits
    (the result is then non-negative, and [0] only for an empty
    rectangle), but there is a rectangle with 32-bit coordinates, of
    width [65535] and height [65537], for which the product wraps to
    [-1]. *)
Theorem mathlib_rectangle_area_sentinel_not_reserved :
  (forall r : Rectangle,
      exact_area r <= INT32_MAX ->
      0 <= mathlib_rectangle_area (Some r)
      /\ (mathlib_rectangle_area (Some r) = 0
          <-> x (bottom_right r) = x (top_left r)
              \/ y (bottom_right r) = y (top_left r)))
  /\ (exists r : Rectangle,
      in_int32 (x (top_left r)) /\ in_int32 (y (top_left r))
      /\ in_int32 (x (bottom_right r)) /\ in_int32 (y (bottom_right r))
      /\ mathlib_rectangle_area (Some r) = -1).
Proof.
  split.
  - intros r Hfit. rewrite (rectangle_area_exact r Hfit).
    unfold exact_area. split; [nia|]. split; [nia|].
    intros [-> | ->]; rewrite Z.sub_diag; cbn [Z.abs]; lia.
  - exists {| top_left := {| x := 0; y := 0 |};
              bottom_right := {| x := 65535; y := 65537 |} |}.
    cbn [top_left bottom_right x y].
    repeat (split; [ranges|]). reflexivity.
Qed.

Lemma mathlib_rectangle_area_sentinel_not_reserved_witness :
  0 <= mathlib_rectangle_area
         (Some {| top_left := {| x := 7; y := 1 |};
                  bottom_right := {| x := 2; y := 5 |} |}).
Proof.
  apply (proj1 mathlib_rectangle_area_sentinel_not_reserved
           {| top_left := {| x := 7; y := 1 |};
              bottom_right := {| x := 2; y := 5 |} |}).
  vm_compute. discriminate.
Defined.

(** ** Rounding of the quotient *)

(** The quotient is rounded toward zero, not downward: negating the
    dividend, or the divisor, negates the quotient written. *)
Theorem mathlib_divide_truncates_symmetrically (a b old q : Z) :
  in_int32 a -> in_int32 b -> a <> INT32_MIN -> b <> INT32_MIN ->
  mathlib_divide a b (Some old) = Returns MATHLIB_OK (Some q) ->
  mathlib_divide (- a) b (Some old) = Returns MATHLIB_OK (Some (- q))
  /\ mathlib_divide a (- b) (Some old) = Returns MATHLIB_OK (Some (- q))
  /\ 0 <= q * b * a.
Proof.
  intros Ha Hb Hamin Hbmin. unfold mathlib_divide, div32.
  destruct (Z.eqb_spec b 0) as [|Hb0]; [discriminate|].
  destruct (Z.eqb_spec (- b) 0); [lia|].
  destruct (Z.eqb_spec a INT32_MIN); [contradiction|].
  destruct (Z.eqb_spec (- a) INT32_MIN); [ranges|].
  cbn [andb]. intros [= <-].
  rewrite Z.quot_opp_l, Z.quot_opp_r by assumption.
  split; [reflexivity|]. split; [reflexivity|].
  destruct (Z.le_ge_cases 0 a) as [Hpos|Hneg].
  - pose proof (Z.mul_quot_le a b Hpos Hb0). nia.
  - pose proof (Z.mul_quot_ge a b Hneg Hb0). nia.
Qed.

Lemma mathlib_divide_truncates_symmetrically_witness :
  mathlib_divide (- 7) 2 (Some 0) = Returns MATHLIB_OK (Some (- 3))
  /\ mathlib_divide 7 (- 2) (Some 0) = Returns MATHLIB_OK (Some (- 3))
  /\ 0 <= 3 * 2 * 7.
Proof.
  apply (mathlib_divide_truncates_symmetrically 7 2 0 3);
    try ranges; reflexivity.
Defined.
